(** * Dropdown.js: a shallow embedding of the dropdown widget

    The widget of [lib/Dropdown.js] is a JavaScript object whose methods
    mutate three things: its own fields, the class list of its root element
    and the timer table of the browser.  The embedding keeps all of it in one
    record, [State], threaded through every method.  Time is an integer number
    of milliseconds; [setTimeout] and [clearTimeout] act on a table of pending
    timers with fresh handles, which is what makes the two debounced methods
    independent of each other.

    The callbacks handed to the constructor are opaque to the widget.  They
    are modelled as observers: every invocation is appended to a log together
    with what the callback can see of its first argument, the widget. *)

From Stdlib Require Import ZArith List String Bool Lia.
Import ListNotations.
Set Warnings "-register-all".
Open Scope string_scope.
Open Scope list_scope.
Open Scope Z_scope.

(** ** The document *)

(** An element with its tag name, the tokens of its class list, its
    attributes and its children, in document order. *)
Inductive Node : Type :=
| Element (tagName : string) (classes : list string)
          (attrs : list (string * string)) (childNodes : list Node).

(** An element reference is the list of child indices leading to it from the
    root of the document, so that [===] on elements is equality of paths. *)
Definition Path : Type := list nat.

Definition tag_of (n : Node) : string :=
  match n with Element t _ _ _ => t end.

Definition classes_of (n : Node) : list string :=
  match n with Element _ c _ _ => c end.

Definition attrs_of (n : Node) : list (string * string) :=
  match n with Element _ _ a _ => a end.

Definition children_of (n : Node) : list Node :=
  match n with Element _ _ _ k => k end.

Fixpoint node_at (n : Node) (p : Path) : option Node :=
  match p with
  | [] => Some n
  | i :: q =>
      match nth_error (children_of n) i with
      | Some k => node_at k q
      | None => None
      end
  end.

Fixpoint path_eqb (a b : Path) : bool :=
  match a, b with
  | [], [] => true
  | i :: a', j :: b' => Nat.eqb i j && path_eqb a' b'
  | _, _ => false
  end.

(** [Node.contains]: an element contains itself and its descendants. *)
Fixpoint contains (a b : Path) : bool :=
  match a, b with
  | [], _ => true
  | i :: a', j :: b' => Nat.eqb i j && contains a' b'
  | _ :: _, [] => false
  end.

(** [Element.querySelector] with a tag selector: the first descendant with
    that tag in document order, relative to the element searched. *)
Fixpoint querySelector (tag : string) (n : Node) : option Path :=
  match n with
  | Element _ _ _ kids =>
      (fix first_in (ks : list Node) (i : nat) {struct ks} : option Path :=
         match ks with
         | [] => None
         | k :: ks' =>
             if String.eqb (tag_of k) tag then Some [i]
             else match querySelector tag k with
                  | Some p => Some (i :: p)
                  | None => first_in ks' (S i)
                  end
         end) kids 0%nat
  end.

Fixpoint lookup_attr (name : string) (a : list (string * string)) : option string :=
  match a with
  | [] => None
  | (k, v) :: r => if String.eqb k name then Some v else lookup_attr name r
  end.

(** [Element.getAttribute]: the value of the attribute, [None] for [null]. *)
Definition getAttribute (d : Node) (e : Path) (name : string) : option string :=
  match node_at d e with
  | Some n => lookup_attr name (attrs_of n)
  | None => None
  end.

Definition hasAttribute (d : Node) (e : Path) (name : string) : bool :=
  match getAttribute d e name with Some _ => true | None => false end.

(** What [if (v)] does with the result of [getAttribute]: [null] and the
    empty string are falsy, every other string is truthy. *)
Definition truthy_attr (v : option string) : bool :=
  match v with
  | Some s => negb (String.eqb s "")
  | None => false
  end.

(** What [if (options.wait)] does with a number: zero and a missing option
    are falsy. *)
Definition truthy_num (v : option Z) : bool :=
  match v with
  | Some z => negb (z =? 0)
  | None => false
  end.

(** [DOMTokenList]: [contains], [add] and [remove] of one token. *)
Definition token_contains (c : list string) (t : string) : bool :=
  existsb (String.eqb t) c.

Definition token_add (c : list string) (t : string) : list string :=
  if token_contains c t then c else c ++ [t].

Definition token_remove (c : list string) (t : string) : list string :=
  filter (fun x => negb (String.eqb t x)) c.

(** ** Events, listeners and timers *)

Inductive EventType : Type := mouseover | mouseout | click.

Inductive EventTarget : Type := Window | Elem (p : Path).

Record Event : Type := { ev_type : EventType; ev_target : Path }.

Definition EventType_eqb (a b : EventType) : bool :=
  match a, b with
  | mouseover, mouseover | mouseout, mouseout | click, click => true
  | _, _ => false
  end.

Definition EventTarget_eqb (a b : EventTarget) : bool :=
  match a, b with
  | Window, Window => true
  | Elem p, Elem q => path_eqb p q
  | _, _ => false
  end.

(** What a timer set by the widget runs when it fires: the callback of the
    debounced [open], the callback of the debounced [close], or the callback
    of the wrapper that [handleEvent] creates around [open] on a
    [mouseover] of the trigger. *)
Inductive Job : Type := Job_open | Job_close | Job_hover_open.

Record Timer : Type := { tid : nat; due : Z; job : Job }.

(** What a callback sees of the widget it is handed. *)
Record Self : Type :=
  { self_isOpened : bool; self_isBrowsing : bool; self_expanded : bool }.

Inductive Call : Type :=
| OnOpen (self : Self)
| OnClose (self : Self)
| OnSelect (self : Self) (item : Path).

(** ** The widget and its environment *)

Record State : Type :=
  { (* the document and the fields set by the constructor *)
    doc : Node;
    el : Path;
    openBy : option string;
    trigger : Path;
    menu : Path;
    timeout : Z;
    (* the mutable fields *)
    isOpened : bool;
    isBrowsing : bool;
    classList : list string;          (* this.el.classList *)
    open_timer : option nat;          (* [timeout] in the closure of this.open *)
    close_timer : option nat;         (* [timeout] in the closure of this.close *)
    (* the browser *)
    now : Z;
    next_id : nat;
    timers : list Timer;
    listeners : list (EventTarget * EventType);
    (* what has been observed, latest first *)
    calls : list (Z * Call);
    fired : list (Z * Job) }.

Definition openClass : string := "expanded".
Definition default_timeout : Z := 400.

Definition set_isOpened (b : bool) (w : State) : State :=
  {| doc := doc w; el := el w; openBy := openBy w; trigger := trigger w;
     menu := menu w; timeout := timeout w; isOpened := b;
     isBrowsing := isBrowsing w; classList := classList w;
     open_timer := open_timer w; close_timer := close_timer w; now := now w;
     next_id := next_id w; timers := timers w; listeners := listeners w;
     calls := calls w; fired := fired w |}.

Definition set_isBrowsing (b : bool) (w : State) : State :=
  {| doc := doc w; el := el w; openBy := openBy w; trigger := trigger w;
     menu := menu w; timeout := timeout w; isOpened := isOpened w;
     isBrowsing := b; classList := classList w;
     open_timer := open_timer w; close_timer := close_timer w; now := now w;
     next_id := next_id w; timers := timers w; listeners := listeners w;
     calls := calls w; fired := fired w |}.

Definition set_classList (c : list string) (w : State) : State :=
  {| doc := doc w; el := el w; openBy := openBy w; trigger := trigger w;
     menu := menu w; timeout := timeout w; isOpened := isOpened w;
     isBrowsing := isBrowsing w; classList := c;
     open_timer := open_timer w; close_timer := close_timer w; now := now w;
     next_id := next_id w; timers := timers w; listeners := listeners w;
     calls := calls w; fired := fired w |}.

Definition set_open_timer (h : option nat) (w : State) : State :=
  {| doc := doc w; el := el w; openBy := openBy w; trigger := trigger w;
     menu := menu w; timeout := timeout w; isOpened := isOpened w;
     isBrowsing := isBrowsing w; classList := classList w;
     open_timer := h; close_timer := close_timer w; now := now w;
     next_id := next_id w; timers := timers w; listeners := listeners w;
     calls := calls w; fired := fired w |}.

Definition set_close_timer (h : option nat) (w : State) : State :=
  {| doc := doc w; el := el w; openBy := openBy w; trigger := trigger w;
     menu := menu w; timeout := timeout w; isOpened := isOpened w;
     isBrowsing := isBrowsing w; classList := classList w;
     open_timer := open_timer w; close_timer := h; now := now w;
     next_id := next_id w; timers := timers w; listeners := listeners w;
     calls := calls w; fired := fired w |}.

Definition set_now (t : Z) (w : State) : State :=
  {| doc := doc w; el := el w; openBy := openBy w; trigger := trigger w;
     menu := menu w; timeout := timeout w; isOpened := isOpened w;
     isBrowsing := isBrowsing w; classList := classList w;
     open_timer := open_timer w; close_timer := close_timer w; now := t;
     next_id := next_id w; timers := timers w; listeners := listeners w;
     calls := calls w; fired := fired w |}.

Definition set_timers (n : nat) (ts : list Timer) (w : State) : State :=
  {| doc := doc w; el := el w; openBy := openBy w; trigger := trigger w;
     menu := menu w; timeout := timeout w; isOpened := isOpened w;
     isBrowsing := isBrowsing w; classList := classList w;
     open_timer := open_timer w; close_timer := close_timer w; now := now w;
     next_id := n; timers := ts; listeners := listeners w;
     calls := calls w; fired := fired w |}.

Definition set_listeners (l : list (EventTarget * EventType)) (w : State) : State :=
  {| doc := doc w; el := el w; openBy := openBy w; trigger := trigger w;
     menu := menu w; timeout := timeout w; isOpened := isOpened w;
     isBrowsing := isBrowsing w; classList := classList w;
     open_timer := open_timer w; close_timer := close_timer w; now := now w;
     next_id := next_id w; timers := timers w; listeners := l;
     calls := calls w; fired := fired w |}.

Definition set_calls (c : list (Z * Call)) (w : State) : State :=
  {| doc := doc w; el := el w; openBy := openBy w; trigger := trigger w;
     menu := menu w; timeout := timeout w; isOpened := isOpened w;
     isBrowsing := isBrowsing w; classList := classList w;
     open_timer := open_timer w; close_timer := close_timer w; now := now w;
     next_id := next_id w; timers := timers w; listeners := listeners w;
     calls := c; fired := fired w |}.

Definition set_fired (f : list (Z * Job)) (w : State) : State :=
  {| doc := doc w; el := el w; openBy := openBy w; trigger := trigger w;
     menu := menu w; timeout := timeout w; isOpened := isOpened w;
     isBrowsing := isBrowsing w; classList := classList w;
     open_timer := open_timer w; close_timer := close_timer w; now := now w;
     next_id := next_id w; timers := timers w; listeners := listeners w;
     calls := calls w; fired := f |}.

(** The expanded marker: the root element carries [openClass]. *)
Definition expanded (w : State) : bool := token_contains (classList w) openClass.

Definition self_of (w : State) : Self :=
  {| self_isOpened := isOpened w; self_isBrowsing := isBrowsing w;
     self_expanded := expanded w |}.

(** An invocation of one of the three callbacks, at the current time. *)
Definition invoke (c : Call) (w : State) : State :=
  set_calls ((now w, c) :: calls w) w.

(** ** Timers *)

(** [setTimeout(job, time)]: a negative delay counts as zero; the handle is
    fresh. *)
Definition setTimeout (j : Job) (time : Z) (w : State) : nat * State :=
  (next_id w,
   set_timers (S (next_id w))
     (timers w ++ [{| tid := next_id w; due := now w + Z.max 0 time; job := j |}]) w).

(** [clearTimeout(handle)]: nothing happens for [undefined], [null] and a
    handle that is no longer pending. *)
Definition clearTimeout (h : option nat) (w : State) : State :=
  match h with
  | None => w
  | Some i =>
      set_timers (next_id w)
        (filter (fun x => negb (Nat.eqb (tid x) i)) (timers w)) w
  end.

(** ** The methods *)

Definition onBrowse (w : State) : State := set_isBrowsing true w.

Definition onEndBrowse (w : State) : State := set_isBrowsing false w.

Definition _open (w : State) : State :=
  if isOpened w then w
  else
    let w1 := set_classList (token_add (classList w) openClass) w in
    let w2 := set_isOpened true w1 in
    invoke (OnOpen (self_of w2)) w2.

Definition _close (w : State) : State :=
  if (isBrowsing w && isOpened w) || negb (isOpened w) then w
  else
    let w1 := set_classList (token_remove (classList w) openClass) w in
    let w2 := set_isOpened false w1 in
    invoke (OnClose (self_of w2)) w2.

Definition select (element : Path) (w : State) : State :=
  let isDisabled := getAttribute (doc w) element "disabled" in
  if truthy_attr isDisabled then w
  else invoke (OnSelect (self_of w) element) w.

Definition toggle (w : State) : State :=
  if isOpened w then _close w else _open w.

(** The two closures that [setDebouncedMethods] stores in [this.open] and
    [this.close]; each owns one [timeout] variable. *)
Inductive Slot : Type := Slot_open | Slot_close.

Definition slot_get (s : Slot) (w : State) : option nat :=
  match s with Slot_open => open_timer w | Slot_close => close_timer w end.

Definition slot_set (s : Slot) (h : option nat) (w : State) : State :=
  match s with
  | Slot_open => set_open_timer h w
  | Slot_close => set_close_timer h w
  end.

(** A call of the function returned by [debounce(fn, time)] whose [timeout]
    variable is [s]: the pending timer of that variable is cleared and a new
    one is set. *)
Definition debounced (s : Slot) (j : Job) (time : Z) (w : State) : State :=
  let w1 := clearTimeout (slot_get s w) w in
  let '(h, w2) := setTimeout j time w1 in
  slot_set s (Some h) w2.

(** The first and only call of a function just returned by [debounce]: its
    [timeout] variable is still [undefined], and nothing else can reach it. *)
Definition debounced_fresh (j : Job) (time : Z) (w : State) : State :=
  snd (setTimeout j time (clearTimeout None w)).

Definition open (w : State) : State := debounced Slot_open Job_open (timeout w) w.

Definition close (w : State) : State := debounced Slot_close Job_close (timeout w) w.

(** The function handed to [setTimeout] by [debounce]: the [timeout] variable
    is reset, then [fn] runs. *)
Definition run_job (j : Job) (w : State) : State :=
  match j with
  | Job_open => _open (slot_set Slot_open None w)
  | Job_close => _close (slot_set Slot_close None w)
  | Job_hover_open => open w
  end.

Definition setDebouncedMethods (w : State) : State :=
  set_close_timer None (set_open_timer None w).

Definition is_hover (m : option string) : bool :=
  match m with Some s => String.eqb s "hover" | None => false end.

Definition has_listener (l : list (EventTarget * EventType))
    (t : EventTarget) (e : EventType) : bool :=
  existsb (fun x => EventTarget_eqb (fst x) t && EventType_eqb (snd x) e) l.

(** [target.addEventListener(type, this)]: registering twice is registering
    once. *)
Definition addEventListener (t : EventTarget) (e : EventType) (w : State) : State :=
  if has_listener (listeners w) t e then w
  else set_listeners (listeners w ++ [(t, e)]) w.

Definition removeEventListener (t : EventTarget) (e : EventType) (w : State) : State :=
  set_listeners
    (filter (fun x => negb (EventTarget_eqb (fst x) t && EventType_eqb (snd x) e))
       (listeners w)) w.

Definition registerToggleHandlers (w : State) : State :=
  let w1 :=
    if is_hover (openBy w) then
      addEventListener (Elem (menu w)) mouseout
        (addEventListener (Elem (menu w)) mouseover
           (addEventListener (Elem (trigger w)) mouseout
              (addEventListener (Elem (trigger w)) mouseover w)))
    else addEventListener (Elem (trigger w)) click w in
  addEventListener Window click (addEventListener (Elem (menu w)) click w1).

Definition registerEventsHandlers (w : State) : State := registerToggleHandlers w.

Definition initialize (w : State) : State :=
  let w1 := set_isOpened (token_contains (classList w) openClass) w in
  registerEventsHandlers (setDebouncedMethods w1).

(** The options of the constructor.  The three callbacks are left out: the
    widget stores them, or a function that does nothing, and only ever calls
    them. *)
Record Options : Type :=
  { opt_el : Path; opt_openBy : option string; opt_wait : option Z }.

(** [new Dropdown(options)] in document [d] at time [t0].  The result is
    [None] when the constructor throws: [options.el] is not an element, or it
    has no [div] or no [ul] below it, so that registering a listener on the
    missing element raises a [TypeError]. *)
Definition Dropdown (d : Node) (t0 : Z) (options : Options) : option State :=
  match node_at d (opt_el options) with
  | None => None
  | Some element =>
      match querySelector "div" element, querySelector "ul" element with
      | Some tr, Some mn =>
          Some (initialize
            {| doc := d; el := opt_el options; openBy := opt_openBy options;
               trigger := (opt_el options ++ tr)%list;
               menu := (opt_el options ++ mn)%list;
               timeout := if truthy_num (opt_wait options)
                          then match opt_wait options with
                               | Some z => z
                               | None => default_timeout
                               end
                          else default_timeout;
               isOpened := false; isBrowsing := false;
               classList := classes_of element;
               open_timer := None; close_timer := None;
               now := t0; next_id := 1; timers := []; listeners := [];
               calls := []; fired := [] |})
      | _, _ => None
      end
  end.

(** [handleEvent(event)]; the boolean tells whether [event.stopPropagation()]
    was called. *)
Definition handleEvent (event : Event) (w : State) : State * bool :=
  let eventElement := ev_target event in
  let isTrigger := path_eqb eventElement (trigger w) in
  let isMenu := contains (menu w) eventElement || path_eqb eventElement (menu w) in
  match ev_type event with
  | mouseover =>
      let w1 := if isTrigger then debounced_fresh Job_hover_open (timeout w) w else w in
      let w2 := if isMenu then onBrowse w1 else w1 in
      (w2, false)
  | mouseout =>
      let w1 := if isTrigger then close w else w in
      let w2 := if isMenu then close (onEndBrowse w1) else w1 in
      (w2, false)
  | click =>
      if isTrigger then (toggle w, true)
      else if isMenu then (select eventElement w, true)
      else (_close w, false)
  end.

Definition destroy (w : State) : State :=
  let w1 :=
    if is_hover (openBy w) then
      removeEventListener (Elem (menu w)) mouseout
        (removeEventListener (Elem (menu w)) mouseover
           (removeEventListener (Elem (trigger w)) mouseout
              (removeEventListener (Elem (trigger w)) mouseover w)))
    else removeEventListener (Elem (trigger w)) click w in
  removeEventListener (Elem (menu w)) click (removeEventListener Window click w1).

(** ** The event loop *)

(** The pending timer that fires next: the one that is due first and, among
    those due at the same time, the one that was set first. *)
Fixpoint earliest (ts : list Timer) : option Timer :=
  match ts with
  | [] => None
  | x :: r =>
      match earliest r with
      | Some y => if due y <? due x then Some y else Some x
      | None => Some x
      end
  end.

(** A timer fires: it leaves the table, the clock reaches its due time, the
    firing is recorded and its callback runs. *)
Definition fire (x : Timer) (w : State) : State :=
  let w1 := clearTimeout (Some (tid x)) w in
  let w2 := set_now (Z.max (now w1) (due x)) w1 in
  run_job (job x) (set_fired ((now w2, job x) :: fired w2) w2).

Fixpoint run_timers (fuel : nat) (t : Z) (w : State) : State :=
  match fuel with
  | O => w
  | S f =>
      match earliest (timers w) with
      | Some x => if due x <=? t then run_timers f t (fire x w) else w
      | None => w
      end
  end.

(** How many firings a table of pending timers can lead to: the wrapper of
    [handleEvent] sets one more timer when it fires, the others set none. *)
Definition weight (j : Job) : nat :=
  match j with Job_hover_open => 2%nat | _ => 1%nat end.

Definition backlog (ts : list Timer) : nat :=
  fold_right (fun x n => (weight (job x) + n)%nat) 0%nat ts.

(** Time passes until [t]: every timer due by then fires, in order. *)
Definition advance (t : Z) (w : State) : State :=
  let w' := run_timers (backlog (timers w)) t w in
  set_now (Z.max (now w') t) w'.

(** The targets an event visits when it bubbles: the target element, its
    ancestors up to the root of the document, then the window. *)
Fixpoint ancestors_or_self (p : Path) : list Path :=
  match p with
  | [] => [[]]
  | i :: q => (map (cons i) (ancestors_or_self q) ++ [[]])%list
  end.

Definition propagation_path (p : Path) : list EventTarget :=
  (map Elem (ancestors_or_self p) ++ [Window])%list.

Fixpoint deliver (path : list EventTarget) (event : Event) (w : State) : State :=
  match path with
  | [] => w
  | t :: r =>
      if has_listener (listeners w) t (ev_type event) then
        let '(w', stopped) := handleEvent event w in
        if stopped then w' else deliver r event w'
      else deliver r event w
  end.

(** The browser dispatches an event: the widget is the listener of every
    registration, and [stopPropagation] ends the walk. *)
Definition dispatch (event : Event) (w : State) : State :=
  deliver (propagation_path (ev_target event)) event w.

(** What can happen to the widget at a given time, and a run of such
    happenings at non-decreasing times. *)
Inductive Action : Type :=
| Call_open
| Call_close
| Call_toggle
| Call_select (item : Path)
| Fire_event (e : Event).

Definition perform (a : Action) (w : State) : State :=
  match a with
  | Call_open => open w
  | Call_close => close w
  | Call_toggle => toggle w
  | Call_select i => select i w
  | Fire_event e => dispatch e w
  end.

Fixpoint run (script : list (Z * Action)) (w : State) : State :=
  match script with
  | [] => w
  | (t, a) :: r => run r (perform a (advance t w))
  end.

(** The same action at each of the given times. *)
Definition burst (a : Action) (ts : list Z) : list (Z * Action) :=
  map (fun t => (t, a)) ts.

(** Consecutive times of a burst: in order, and less than [d] apart. *)
Fixpoint rapid (d : Z) (t : Z) (ts : list Z) : Prop :=
  match ts with
  | [] => True
  | u :: r => t <= u < t + d /\ rapid d u r
  end.

(** ** Well-formed states *)

Definition slot_job (s : Slot) : Job :=
  match s with Slot_open => Job_open | Slot_close => Job_close end.

(** Handles are fresh and distinct, and the [timeout] variable of a debounced method holds
    the handle of a pending timer exactly when that timer is its own. *)
Record wf (w : State) : Prop :=
  { wf_fresh : forall x, In x (timers w) -> (tid x < next_id w)%nat;
    wf_nodup : NoDup (map tid (timers w));
    wf_handle : forall s i, slot_get s w = Some i -> (i < next_id w)%nat;
    wf_slot : forall s x, In x (timers w) ->
                (job x = slot_job s <-> slot_get s w = Some (tid x)) }.

(** The part of the state that belongs to opening: the pending timers that
    lead to [_open], the handle of [this.open], and the firings of [_open]. *)
Definition is_open_job (j : Job) : bool :=
  match j with Job_close => false | _ => true end.

Definition is_close_job (j : Job) : bool :=
  match j with Job_close => true | _ => false end.

Definition is_hover_job (j : Job) : bool :=
  match j with Job_hover_open => true | _ => false end.

Definition pending (f : Job -> bool) (w : State) : list Timer :=
  filter (fun x => f (job x)) (timers w).

Definition firings (j : Job) (w : State) : list Z :=
  map fst (filter (fun e => match snd e, j with
                            | Job_open, Job_open => true
                            | Job_close, Job_close => true
                            | Job_hover_open, Job_hover_open => true
                            | _, _ => false
                            end) (fired w)).

Definition is_OnOpen (c : Z * Call) : bool :=
  match snd c with OnOpen _ => true | _ => false end.

Definition is_OnClose (c : Z * Call) : bool :=
  match snd c with OnClose _ => true | _ => false end.

(** The times at which [onOpen] was called. *)
Definition onOpen_times (w : State) : list Z :=
  map fst (filter is_OnOpen (calls w)).

Definition onClose_times (w : State) : list Z :=
  map fst (filter is_OnClose (calls w)).

(** ** A sample page

    A dropdown in a page: the root element holds the trigger [div] (with a
    label inside) and the menu [ul] with three items, the second carrying an
    empty [disabled] attribute, the third [disabled="disabled"]; a paragraph
    follows the dropdown. *)
Definition item (a : list (string * string)) : Node := Element "li" [] a [].

Definition page (root_classes menu_classes : list string) : Node :=
  Element "body" [] []
    [ Element "div" root_classes []
        [ Element "div" [] [] [Element "span" [] [] []];
          Element "ul" menu_classes []
            [item []; item [("disabled", "")]; item [("disabled", "disabled")]] ];
      Element "p" [] [] [] ].

Definition sample_el : Path := [0%nat].
Definition sample_trigger : Path := [0%nat; 0%nat].
Definition sample_label : Path := [0%nat; 0%nat; 0%nat].
Definition sample_menu : Path := [0%nat; 1%nat].
Definition sample_item (i : nat) : Path := [0%nat; 1%nat; i].
Definition sample_outside : Path := [1%nat].

Definition sample_options (m : option string) (wait : option Z) : Options :=
  {| opt_el := sample_el; opt_openBy := m; opt_wait := wait |}.

(** The state the constructor would leave on the sample page, written out;
    [sample_built] below checks it against [Dropdown]. *)
Definition sample (hover opened browsing : bool) (d : Z) : State :=
  {| doc := page (if opened then [openClass] else []) [];
     el := sample_el;
     openBy := if hover then Some "hover" else None;
     trigger := sample_trigger; menu := sample_menu; timeout := d;
     isOpened := opened; isBrowsing := browsing;
     classList := if opened then [openClass] else [];
     open_timer := None; close_timer := None;
     now := 0; next_id := 1; timers := [];
     listeners :=
       if hover then
         [(Elem sample_trigger, mouseover); (Elem sample_trigger, mouseout);
          (Elem sample_menu, mouseover); (Elem sample_menu, mouseout);
          (Elem sample_menu, click); (Window, click)]
       else
         [(Elem sample_trigger, click); (Elem sample_menu, click); (Window, click)];
     calls := []; fired := [] |}.

Definition enter_trigger (w : State) : Action :=
  Fire_event {| ev_type := mouseover; ev_target := trigger w |}.

(** ** The sentences of the specification that the code does not satisfy,
    as they are written *)

(** "N rapid calls to open() result in exactly one invocation of _open and
    exactly one onOpen callback, firing the delay after the last call", for
    the calls at times [t :: ts]. *)
Definition collapses_to_one_onOpen (w : State) (t : Z) (ts : list Z) : Prop :=
  let at_ := last ts t + timeout w in
  let w' := advance at_ (run (burst Call_open (t :: ts)) w) in
  firings Job_open w' = at_ :: firings Job_open w /\
  onOpen_times w' = at_ :: onOpen_times w.

(** "isOpened at construction equals whether the menu region already carries
    the expanded marker". *)
Definition bootstrapped_from_menu (d : Node) (t0 : Z) (o : Options) : Prop :=
  forall w m, Dropdown d t0 o = Some w -> node_at d (menu w) = Some m ->
    isOpened w = token_contains (classes_of m) openClass.

(** "open fires after the debounce window elapses from the last qualifying
    pointer-enter", for the pointer-enters at times [t :: ts]. *)
Definition opens_one_window_after (w : State) (t : Z) (ts : list Z) : Prop :=
  let at_ := last ts t + timeout w in
  let w' := advance at_ (run (burst (enter_trigger w) (t :: ts)) w) in
  firings Job_open w' = at_ :: firings Job_open w.

(** The listeners are those of [registerToggleHandlers], none removed. *)
Definition registered (w : State) : Prop :=
  listeners w = listeners (registerToggleHandlers (set_listeners [] w)).

(** What no method but [destroy] touches once the widget is built. *)
Definition same_setting (w w' : State) : Prop :=
  doc w' = doc w /\ el w' = el w /\ openBy w' = openBy w /\
  trigger w' = trigger w /\ menu w' = menu w /\ timeout w' = timeout w /\
  listeners w' = listeners w.

(** Nothing on the side of opening has changed from [w] to [w']: the
    pending timers that lead to [_open], the handle held by [this.open], the
    firings of [_open] and the calls of [onOpen] are the same, and a closed
    widget is still closed. *)
Definition same_open_side (w w' : State) : Prop :=
  pending is_open_job w' = pending is_open_job w /\
  open_timer w' = open_timer w /\
  firings Job_open w' = firings Job_open w /\
  onOpen_times w' = onOpen_times w /\
  (isOpened w = false -> isOpened w' = false).

(** One timer of the debounced [open] is pending, due at [D], and nothing
    else that leads to [_open]. *)
Definition armed (w : State) (D : Z) : Prop :=
  exists x, pending is_open_job w = [x] /\ job x = Job_open /\ due x = D.

Definition is_Job_open (j : Job) : bool :=
  match j with Job_open => true | _ => false end.

(** When the pending wrappers of [handleEvent] are due, in the order they
    were set, and when the pending timers of the debounced [open] are due. *)
Definition hov (w : State) : list Z := map due (pending is_hover_job w).

Definition inn (w : State) : list Z := map due (pending is_Job_open w).

(** A burst of pointer-enters under way: wrappers are pending, due at
    [h :: hs], each less than a delay after the one before; the clock has not
    passed the last of them; and a pending timer of the debounced [open] is
    due later than the first wrapper, which will replace it. *)
Definition relay (w : State) (h : Z) (hs : list Z) : Prop :=
  hov w = h :: hs /\ rapid (timeout w) h hs /\ now w <= last hs h /\
  Forall (fun D => h < D) (inn w).

(** The widget was built in hover mode, still listens, and its trigger is
    not inside its menu. *)
Definition hover_ready (w : State) : Prop :=
  registered w /\ is_hover (openBy w) = true /\
  contains (menu w) (trigger w) = false.

(** The flag and the marker agree. *)
Definition synced (w : State) : Prop := isOpened w = expanded w.

(** Nothing is under way on the side of opening: the widget is opened or
    not, browsed or not, the clock reads [n], [onClose] was called at the
    times [cl], and the timer table is empty or holds one timer of the
    debounced [close], due at [D]. *)
Definition resting (w : State) (o b : bool) (p : option Z) (n : Z) (cl : list Z) : Prop :=
  wf w /\ isOpened w = o /\ isBrowsing w = b /\ now w = n /\
  onClose_times w = cl /\
  match p with
  | None => timers w = []
  | Some D => exists x, timers w = [x] /\ job x = Job_close /\ due x = D
  end.

Definition leave_trigger (w : State) : Action :=
  Fire_event {| ev_type := mouseout; ev_target := trigger w |}.

Definition click_trigger (w : State) : Event :=
  {| ev_type := click; ev_target := trigger w |}.

(** * Properties *)

(** ** Tokens, paths and truthiness *)

Lemma token_contains_add (c : list string) (t : string) :
  token_contains (token_add c t) t = true.
Proof.
  unfold token_add. destruct (token_contains c t) eqn:E; [exact E|].
  unfold token_contains. rewrite existsb_app. simpl.
  rewrite String.eqb_refl. now rewrite orb_true_r.
Qed.

Lemma token_contains_remove (c : list string) (t : string) :
  token_contains (token_remove c t) t = false.
Proof.
  unfold token_contains, token_remove.
  induction c as [|x c IH]; simpl; [reflexivity|].
  destruct (String.eqb t x) eqn:E; simpl; [exact IH|].
  now rewrite E.
Qed.

Lemma path_eqb_eq (a b : Path) : path_eqb a b = true <-> a = b.
Proof.
  revert b. induction a as [|i a IH]; destruct b as [|j b]; simpl;
    try (split; [discriminate|discriminate]); [tauto|].
  rewrite andb_true_iff, Nat.eqb_eq, IH. split.
  - intros [-> ->]. reflexivity.
  - intros H. injection H as -> ->. tauto.
Qed.

Lemma path_eqb_refl (a : Path) : path_eqb a a = true.
Proof. now apply path_eqb_eq. Qed.

Lemma contains_refl (a : Path) : contains a a = true.
Proof.
  induction a as [|i a IH]; simpl; [reflexivity|].
  now rewrite Nat.eqb_refl.
Qed.

(** The second test of [isMenu] in [handleEvent] adds nothing to the first. *)
Lemma isMenu_contains (m e : Path) :
  contains m e || path_eqb e m = contains m e.
Proof.
  destruct (path_eqb e m) eqn:E; [|apply orb_false_r].
  apply path_eqb_eq in E. subst. now rewrite contains_refl.
Qed.

Lemma sample_built (hover opened : bool) (d : Z) :
  d <> 0 ->
  Dropdown (page (if opened then [openClass] else []) []) 0
    (sample_options (if hover then Some "hover" else None) (Some d))
  = Some (sample hover opened false d).
Proof.
  intros Hd. unfold Dropdown, sample_options. simpl.
  destruct (Z.eqb_spec d 0) as [->|_]; [contradiction|].
  destruct hover, opened; reflexivity.
Qed.

(** ** The immediate transitions *)

Lemma _open_opened (w : State) : isOpened w = true -> _open w = w.
Proof. intros H. unfold _open. now rewrite H. Qed.

Lemma _close_closed (w : State) : isOpened w = false -> _close w = w.
Proof. intros H. unfold _close. rewrite H. now rewrite andb_false_r. Qed.

Lemma _close_browsing (w : State) : isBrowsing w = true -> _close w = w.
Proof.
  intros H. unfold _close. rewrite H. now destruct (isOpened w).
Qed.

Lemma _close_twice (w : State) : _close (_close w) = _close w.
Proof.
  destruct ((isBrowsing w && isOpened w) || negb (isOpened w)) eqn:E.
  - assert (H : _close w = w) by (unfold _close; now rewrite E).
    now rewrite H.
  - apply _close_closed. unfold _close. now rewrite E.
Qed.

(** C1: toggle() is _close on an opened widget and _open on a closed one, and
    either runs within the call: no timer is set and no time passes.  A closed
    widget ends opened, with the expanded marker and one onOpen; an opened
    one ends closed, without the marker and with one onClose, unless it is
    being browsed, in which case nothing changes. *)
Theorem toggle_synchronous (w : State) :
  toggle w = (if isOpened w then _close w else _open w) /\
  timers (toggle w) = timers w /\
  now (toggle w) = now w /\
  fired (toggle w) = fired w /\
  isBrowsing (toggle w) = isBrowsing w /\
  isOpened (toggle w) = (if isOpened w then isBrowsing w else true) /\
  expanded (toggle w) =
    (if isOpened w then (if isBrowsing w then expanded w else false) else true) /\
  calls (toggle w) =
    (if isOpened w then
       if isBrowsing w then calls w
       else (now w, OnClose {| self_isOpened := false; self_isBrowsing := false;
                               self_expanded := false |}) :: calls w
     else (now w, OnOpen {| self_isOpened := true;
                            self_isBrowsing := isBrowsing w;
                            self_expanded := true |}) :: calls w).
Proof.
  unfold toggle, _close, _open, invoke, self_of, expanded.
  destruct (isOpened w) eqn:Ho, (isBrowsing w) eqn:Hb; simpl;
    rewrite ?Ho, ?Hb, ?token_contains_add, ?token_contains_remove;
    repeat split; reflexivity.
Qed.

(** C3: while the menu is browsed, any number of calls of _close() leaves the
    whole state as it is: isOpened, the expanded marker, and the log of
    callbacks, to which no onClose is added. *)
Theorem close_suppressed_while_browsing (n : nat) (w : State) :
  isBrowsing w = true ->
  Nat.iter n _close w = w /\
  isOpened (Nat.iter n _close w) = isOpened w /\
  expanded (Nat.iter n _close w) = expanded w /\
  calls (Nat.iter n _close w) = calls w.
Proof.
  intros Hb.
  assert (E : Nat.iter n _close w = w).
  { induction n as [|n IH]; simpl; [reflexivity|].
    rewrite IH. now apply _close_browsing. }
  rewrite E. repeat split; reflexivity.
Qed.

Lemma close_suppressed_while_browsing_witness :
  isBrowsing (sample true true true 400) = true /\
  Nat.iter 5 _close (sample true true true 400) = sample true true true 400.
Proof.
  split; [reflexivity|].
  apply (close_suppressed_while_browsing 5 (sample true true true 400)).
  reflexivity.
Defined.

(** C6: _open() on an opened widget and _close() on a closed one return the
    state they were given: isOpened, isBrowsing, the expanded marker and the
    log of callbacks are the same, so neither onOpen nor onClose is called. *)
Theorem redundant_transition_noop (w : State) (opened : bool) :
  isOpened w = opened ->
  let w' := if opened then _open w else _close w in
  w' = w /\ isOpened w' = isOpened w /\ isBrowsing w' = isBrowsing w /\
  expanded w' = expanded w /\ calls w' = calls w.
Proof.
  intros H. simpl.
  assert (E : (if opened then _open w else _close w) = w).
  { destruct opened; [now apply _open_opened | now apply _close_closed]. }
  rewrite E. repeat split; reflexivity.
Qed.

Lemma redundant_transition_noop_witness :
  _open (sample false true false 400) = sample false true false 400 /\
  _close (sample false false false 400) = sample false false false 400.
Proof.
  split.
  - apply (redundant_transition_noop (sample false true false 400) true).
    reflexivity.
  - apply (redundant_transition_noop (sample false false false 400) false).
    reflexivity.
Defined.

(** ** Selecting an item *)

(** What the guard of [select] does in each case of the attribute. *)
Lemma select_guard (element : Path) (w : State) :
  select element w =
    match getAttribute (doc w) element "disabled" with
    | None => invoke (OnSelect (self_of w) element) w
    | Some v =>
        if String.eqb v "" then invoke (OnSelect (self_of w) element) w else w
    end.
Proof.
  unfold select, truthy_attr.
  destruct (getAttribute (doc w) element "disabled") as [v|]; [|reflexivity].
  now destruct (String.eqb v "").
Qed.

Lemma select_enabled_once (element : Path) (w : State) :
  hasAttribute (doc w) element "disabled" = false ->
  calls (select element w) = (now w, OnSelect (self_of w) element) :: calls w.
Proof.
  unfold hasAttribute. intros H. rewrite select_guard.
  destruct (getAttribute (doc w) element "disabled"); [discriminate|reflexivity].
Qed.

Lemma select_disabled_value (element : Path) (w : State) (v : string) :
  getAttribute (doc w) element "disabled" = Some v -> v <> "" ->
  select element w = w.
Proof.
  intros H Hv. rewrite select_guard, H.
  destruct (String.eqb_spec v ""); [contradiction|reflexivity].
Qed.

(** C4: the second item of the sample menu carries the disabled attribute,
    with the empty value that a bare [disabled] in the markup gives it;
    select() reads the value, finds it falsy and calls onSelect. *)
Theorem select_empty_disabled_fires :
  hasAttribute (doc (sample false true false 400)) (sample_item 1) "disabled" = true /\
  getAttribute (doc (sample false true false 400)) (sample_item 1) "disabled" = Some "" /\
  calls (select (sample_item 1) (sample false true false 400)) =
    [(0, OnSelect (self_of (sample false true false 400)) (sample_item 1))].
Proof. repeat split. Qed.

(** ** Construction *)

Lemma addEventListener_frame (t : EventTarget) (e : EventType) (w u : State) :
  w = set_listeners (listeners w) u ->
  addEventListener t e w = set_listeners (listeners (addEventListener t e w)) u.
Proof.
  intros H. unfold addEventListener.
  destruct (has_listener (listeners w) t e); [exact H|].
  simpl. generalize (listeners w ++ [(t, e)]). intros l.
  rewrite H. reflexivity.
Qed.

Lemma set_listeners_same (w : State) : w = set_listeners (listeners w) w.
Proof. now destruct w. Qed.

Lemma registerToggleHandlers_frame (w : State) :
  registerToggleHandlers w =
  set_listeners (listeners (registerToggleHandlers w)) w.
Proof.
  unfold registerToggleHandlers.
  destruct (is_hover (openBy w));
    repeat apply addEventListener_frame; apply set_listeners_same.
Qed.

(** What the constructor leaves, field by field. *)
Lemma Dropdown_fields (d : Node) (t0 : Z) (o : Options) (w : State) :
  Dropdown d t0 o = Some w ->
  exists element tr mn,
    node_at d (opt_el o) = Some element /\
    querySelector "div" element = Some tr /\
    querySelector "ul" element = Some mn /\
    doc w = d /\ el w = opt_el o /\ openBy w = opt_openBy o /\
    trigger w = opt_el o ++ tr /\ menu w = opt_el o ++ mn /\
    timeout w = (if truthy_num (opt_wait o)
                 then match opt_wait o with Some z => z | None => default_timeout end
                 else default_timeout) /\
    isOpened w = token_contains (classes_of element) openClass /\
    isBrowsing w = false /\ classList w = classes_of element /\
    open_timer w = None /\ close_timer w = None /\
    now w = t0 /\ next_id w = 1%nat /\ timers w = [] /\
    calls w = [] /\ fired w = [] /\ registered w.
Proof.
  unfold Dropdown. intros H.
  destruct (node_at d (opt_el o)) as [element|]; [|discriminate].
  destruct (querySelector "div" element) as [tr|] eqn:Et; [|discriminate].
  destruct (querySelector "ul" element) as [mn|] eqn:Em; [|discriminate].
  injection H as <-.
  exists element, tr, mn.
  unfold initialize, registerEventsHandlers, registered.
  rewrite registerToggleHandlers_frame.
  repeat split; try assumption.
Qed.

(** C7, as written, fails: on a page whose menu [ul] carries the expanded
    class while the root element does not, the widget starts closed. *)
Lemma menu_marker_is_not_read :
  ~ bootstrapped_from_menu (page [] [openClass]) 0 (sample_options None None).
Proof.
  intros H.
  specialize (H _ (Element "ul" [openClass] []
                     [item []; item [("disabled", "")];
                      item [("disabled", "disabled")]])
                eq_refl eq_refl).
  discriminate H.
Qed.

(** C7, amended: right after the constructor returns, isOpened is whether the
    root element of the dropdown, [options.el], carries the expanded class at
    that moment; the marker the widget goes on to toggle is that same class
    list. *)
Theorem isOpened_bootstrapped (d : Node) (t0 : Z) (o : Options) (w : State) :
  Dropdown d t0 o = Some w ->
  exists element,
    node_at d (opt_el o) = Some element /\
    isOpened w = token_contains (classes_of element) openClass /\
    isOpened w = expanded w.
Proof.
  intros H. apply Dropdown_fields in H.
  destruct H as (element & tr & mn & Hn & _ & _ & _ & _ & _ & _ & _ & _ & Ho & _ & Hc & _).
  exists element. unfold expanded. rewrite Hc. auto.
Qed.

Lemma isOpened_bootstrapped_witness :
  exists element,
    node_at (page [openClass] []) sample_el = Some element /\
    isOpened (sample true true false 400) = token_contains (classes_of element) openClass /\
    isOpened (sample true true false 400) = expanded (sample true true false 400).
Proof.
  apply (isOpened_bootstrapped (page [openClass] []) 0
           (sample_options (Some "hover") (Some 400)) (sample true true false 400)).
  reflexivity.
Defined.

(** C10: the delay of the widget is the [wait] option when that is a number
    other than zero, and 400 when it is zero or missing; it is the delay with
    which the debounced open and close set their timers. *)
Theorem effective_delay (d : Node) (t0 : Z) (o : Options) (w : State) :
  Dropdown d t0 o = Some w ->
  timeout w = match opt_wait o with
              | Some z => if z =? 0 then 400 else z
              | None => 400
              end /\
  timers (open w) =
    [{| tid := 1; due := t0 + Z.max 0 (timeout w); job := Job_open |}] /\
  timers (close w) =
    [{| tid := 1; due := t0 + Z.max 0 (timeout w); job := Job_close |}].
Proof.
  intros H. apply Dropdown_fields in H.
  destruct H as (element & tr & mn & _ & _ & _ & _ & _ & _ & _ & _ & Ht & _ & _ & _
                 & Hot & Hct & Hn & Hi & Hts & _).
  split.
  - rewrite Ht. unfold truthy_num, default_timeout.
    destruct (opt_wait o) as [z|]; [|reflexivity].
    now destruct (z =? 0).
  - unfold open, close, debounced, slot_get. rewrite Hot, Hct. simpl.
    rewrite Hts, Hn, Hi. split; reflexivity.
Qed.

Lemma effective_delay_witness :
  timeout (sample false false false 250) = 250 /\
  timers (open (sample false false false 250)) =
    [{| tid := 1; due := 250; job := Job_open |}].
Proof.
  pose proof (effective_delay (page [] []) 0 (sample_options None (Some 250))
                (sample false false false 250) eq_refl) as (H1 & H2 & _).
  split; [exact H1 | exact H2].
Defined.

(** ** The setting is stable *)

Lemma same_setting_refl (w : State) : same_setting w w.
Proof. repeat split. Qed.

Lemma same_setting_trans (a b c : State) :
  same_setting a b -> same_setting b c -> same_setting a c.
Proof.
  unfold same_setting.
  intros (A1 & A2 & A3 & A4 & A5 & A6 & A7) (B1 & B2 & B3 & B4 & B5 & B6 & B7).
  repeat split; congruence.
Qed.

Lemma same_setting__open (w : State) : same_setting w (_open w).
Proof. unfold _open. destruct (isOpened w); repeat split. Qed.

Lemma same_setting__close (w : State) : same_setting w (_close w).
Proof.
  unfold _close.
  destruct ((isBrowsing w && isOpened w) || negb (isOpened w)); repeat split.
Qed.

Lemma same_setting_toggle (w : State) : same_setting w (toggle w).
Proof.
  unfold toggle.
  destruct (isOpened w); [apply same_setting__close | apply same_setting__open].
Qed.

Lemma same_setting_select (e : Path) (w : State) : same_setting w (select e w).
Proof.
  unfold select.
  destruct (truthy_attr (getAttribute (doc w) e "disabled")); repeat split.
Qed.

Lemma same_setting_debounced (s : Slot) (j : Job) (time : Z) (w : State) :
  same_setting w (debounced s j time w).
Proof.
  unfold debounced. destruct s, (slot_get _ w); repeat split.
Qed.

Lemma same_setting_open (w : State) : same_setting w (open w).
Proof. apply same_setting_debounced. Qed.

Lemma same_setting_close (w : State) : same_setting w (close w).
Proof. apply same_setting_debounced. Qed.

Lemma same_setting_run_job (j : Job) (w : State) : same_setting w (run_job j w).
Proof.
  destruct j; simpl.
  - eapply same_setting_trans; [|apply same_setting__open]. repeat split.
  - eapply same_setting_trans; [|apply same_setting__close]. repeat split.
  - apply same_setting_open.
Qed.

Lemma same_setting_fire (x : Timer) (w : State) : same_setting w (fire x w).
Proof.
  unfold fire.
  eapply same_setting_trans; [|apply same_setting_run_job]. repeat split.
Qed.

Lemma same_setting_run_timers (fuel : nat) (t : Z) (w : State) :
  same_setting w (run_timers fuel t w).
Proof.
  revert w. induction fuel as [|f IH]; intros w; simpl.
  - apply same_setting_refl.
  - destruct (earliest (timers w)) as [x|]; [|apply same_setting_refl].
    destruct (due x <=? t); [|apply same_setting_refl].
    eapply same_setting_trans; [apply same_setting_fire | apply IH].
Qed.

Lemma same_setting_advance (t : Z) (w : State) : same_setting w (advance t w).
Proof.
  unfold advance.
  eapply same_setting_trans; [apply same_setting_run_timers|]. repeat split.
Qed.

Lemma same_setting_handleEvent (ev : Event) (w : State) :
  same_setting w (fst (handleEvent ev w)).
Proof.
  unfold handleEvent.
  destruct (ev_type ev), (path_eqb (ev_target ev) (trigger w)),
    (contains (menu w) (ev_target ev) || path_eqb (ev_target ev) (menu w));
    cbv zeta; simpl fst;
    try apply same_setting_refl; try apply same_setting_close;
    try apply same_setting_toggle; try apply same_setting_select;
    try apply same_setting__close; try (repeat split; fail).
  - eapply same_setting_trans; [apply same_setting_close|].
    eapply same_setting_trans; [|apply same_setting_close]. repeat split.
  - eapply same_setting_trans; [|apply same_setting_close]. repeat split.
Qed.

Lemma same_setting_deliver (path : list EventTarget) (ev : Event) (w : State) :
  same_setting w (deliver path ev w).
Proof.
  revert w. induction path as [|t r IH]; intros w; simpl.
  - apply same_setting_refl.
  - destruct (has_listener (listeners w) t (ev_type ev)); [|apply IH].
    pose proof (same_setting_handleEvent ev w) as H.
    destruct (handleEvent ev w) as [w' stopped]. simpl in H.
    destruct stopped; [exact H|].
    eapply same_setting_trans; [exact H | apply IH].
Qed.

Lemma same_setting_perform (a : Action) (w : State) : same_setting w (perform a w).
Proof.
  destruct a; simpl.
  - apply same_setting_open.
  - apply same_setting_close.
  - apply same_setting_toggle.
  - apply same_setting_select.
  - apply same_setting_deliver.
Qed.

Lemma same_setting_run (script : list (Z * Action)) (w : State) :
  same_setting w (run script w).
Proof.
  revert w. induction script as [|[t a] r IH]; intros w; simpl.
  - apply same_setting_refl.
  - eapply same_setting_trans; [apply same_setting_advance|].
    eapply same_setting_trans; [apply same_setting_perform | apply IH].
Qed.

(** ** Clicks outside the dropdown *)

Lemma handleEvent_outside (e : Path) (w : State) :
  path_eqb e (trigger w) = false -> contains (menu w) e = false ->
  handleEvent {| ev_type := click; ev_target := e |} w = (_close w, false).
Proof.
  intros Ht Hm. unfold handleEvent. simpl.
  now rewrite Ht, isMenu_contains, Hm.
Qed.

(** However many of the listeners on the way hear the click, the widget ends
    as one call of [_close] leaves it. *)
Lemma deliver_outside (e : Path) (path : list EventTarget) (w : State) :
  has_listener (listeners w) Window click = true ->
  path_eqb e (trigger w) = false -> contains (menu w) e = false ->
  deliver (path ++ [Window]) {| ev_type := click; ev_target := e |} w = _close w.
Proof.
  revert w. induction path as [|t r IH]; intros w Hl Ht Hm.
  - simpl. rewrite Hl, handleEvent_outside by assumption. reflexivity.
  - assert (Hc : deliver (r ++ [Window]) {| ev_type := click; ev_target := e |}
                   (_close w) = _close w).
    { destruct (same_setting__close w) as (_ & _ & _ & S4 & S5 & _ & S7).
      rewrite IH; [apply _close_twice| | |]; congruence. }
    simpl. destruct (has_listener (listeners w) t click).
    + rewrite handleEvent_outside by assumption. exact Hc.
    + now apply IH.
Qed.

Lemma EventTarget_eqb_refl (t : EventTarget) : EventTarget_eqb t t = true.
Proof. destruct t as [|p]; simpl; [reflexivity | apply path_eqb_refl]. Qed.

Lemma has_listener_added (t : EventTarget) (e : EventType) (u : State) :
  has_listener (listeners (addEventListener t e u)) t e = true.
Proof.
  unfold addEventListener.
  destruct (has_listener (listeners u) t e) eqn:E; [exact E|].
  simpl. unfold has_listener. rewrite existsb_app. simpl.
  rewrite EventTarget_eqb_refl. destruct e; simpl; apply orb_true_r.
Qed.

(** The last thing [registerToggleHandlers] does, in either mode, is to
    listen for clicks on the window. *)
Lemma registered_listens_window (w : State) :
  registered w -> has_listener (listeners w) Window click = true.
Proof.
  intros Hr. rewrite Hr. unfold registerToggleHandlers.
  apply has_listener_added.
Qed.

Lemma Dropdown_listens_window (d : Node) (t0 : Z) (o : Options) (w : State) :
  Dropdown d t0 o = Some w -> has_listener (listeners w) Window click = true.
Proof.
  intros H. apply Dropdown_fields in H. apply registered_listens_window.
  destruct H as (? & ? & ? & H). apply H.
Qed.

(** C5: a click whose target is neither the trigger nor the menu nor inside
    the menu, on a widget that is opened and not browsed and has the
    listeners that [registerToggleHandlers] registered, the one on the window
    among them, runs [_close] at once: [handleEvent] calls it directly, and
    whatever the event passes on its way up to the window, the widget ends
    closed, without the expanded marker, with one onClose, and with no timer
    set and no time passed. *)
Theorem click_outside_closes (w : State) (e : Path) :
  registered w ->
  path_eqb e (trigger w) = false ->
  contains (menu w) e = false ->
  isOpened w = true ->
  isBrowsing w = false ->
  let ev := {| ev_type := click; ev_target := e |} in
  has_listener (listeners w) Window click = true /\
  handleEvent ev w = (_close w, false) /\
  dispatch ev w = _close w /\
  isOpened (dispatch ev w) = false /\
  expanded (dispatch ev w) = false /\
  calls (dispatch ev w) =
    (now w, OnClose {| self_isOpened := false; self_isBrowsing := false;
                       self_expanded := false |}) :: calls w /\
  timers (dispatch ev w) = timers w /\
  now (dispatch ev w) = now w /\
  fired (dispatch ev w) = fired w.
Proof.
  intros Hr Ht Hm Ho Hb ev.
  pose proof (registered_listens_window w Hr) as Hl.
  assert (E : dispatch ev w = _close w).
  { unfold dispatch, propagation_path. now apply deliver_outside. }
  split; [exact Hl|].
  split; [now apply handleEvent_outside|].
  rewrite E. unfold _close, invoke, self_of, expanded. rewrite Ho, Hb. simpl.
  rewrite token_contains_remove, Hb. repeat split.
Qed.

Lemma click_outside_closes_witness :
  dispatch {| ev_type := click; ev_target := sample_label |}
    (sample false true false 400) = _close (sample false true false 400) /\
  isOpened (dispatch {| ev_type := click; ev_target := sample_outside |}
              (sample true true false 400)) = false.
Proof.
  split.
  - destruct (click_outside_closes (sample false true false 400) sample_label
                eq_refl eq_refl eq_refl eq_refl eq_refl) as (_ & _ & H & _).
    exact H.
  - destruct (click_outside_closes (sample true true false 400) sample_outside
                eq_refl eq_refl eq_refl eq_refl eq_refl) as (_ & _ & _ & H & _).
    exact H.
Defined.

(** ** Lists of timers *)

Lemma filter_absorb {A : Type} (f g : A -> bool) (l : list A) :
  (forall x, In x l -> f x = true -> g x = true) ->
  filter f (filter g l) = filter f l.
Proof.
  induction l as [|a l IH]; intros H; simpl; [reflexivity|].
  assert (IH' : filter f (filter g l) = filter f l).
  { apply IH. intros x Hx. apply H. now right. }
  destruct (g a) eqn:Eg; simpl.
  - now rewrite IH'.
  - destruct (f a) eqn:Ef; [|exact IH'].
    rewrite (H a (or_introl eq_refl) Ef) in Eg. discriminate.
Qed.

Lemma filter_none {A : Type} (f : A -> bool) (l : list A) :
  filter f l = [] <-> forall x, In x l -> f x = false.
Proof.
  induction l as [|a l IH]; simpl; [tauto|].
  destruct (f a) eqn:Ef; split.
  - discriminate.
  - intros H. rewrite (H a (or_introl eq_refl)) in Ef. discriminate.
  - intros H x [<-|Hx]; [exact Ef | now apply IH].
  - intros H. apply IH. intros x Hx. apply H. now right.
Qed.

Lemma NoDup_map_filter {A B : Type} (k : A -> B) (g : A -> bool) (l : list A) :
  NoDup (map k l) -> NoDup (map k (filter g l)).
Proof.
  induction l as [|a l IH]; simpl; intros H; [constructor|].
  inversion H as [|? ? Hn Hd]; subst.
  destruct (g a); simpl; [|now apply IH].
  constructor; [|now apply IH].
  intros Hin. apply Hn. apply in_map_iff in Hin.
  destruct Hin as (x & Hk & Hx). apply filter_In in Hx.
  apply in_map_iff. exists x. tauto.
Qed.

Lemma NoDup_snoc {A : Type} (a : A) (l : list A) :
  ~ In a l -> NoDup l -> NoDup (l ++ [a]).
Proof.
  induction l as [|b l IH]; simpl; intros Hn Hd.
  - constructor; [intros []|constructor].
  - inversion Hd as [|? ? Hb Hl]; subst. constructor.
    + intros Hi. apply in_app_or in Hi. destruct Hi as [Hi|[->|[]]].
      * now apply Hb.
      * apply Hn. now left.
    + apply IH; [|exact Hl]. intros Hi. apply Hn. now right.
Qed.

(** With distinct handles, clearing the handle of a pending timer removes
    that timer and no other. *)
Lemma filter_tid_cut (x : Timer) (l1 l2 : list Timer) :
  NoDup (map tid (l1 ++ x :: l2)) ->
  filter (fun y => negb (Nat.eqb (tid y) (tid x))) (l1 ++ x :: l2) = l1 ++ l2.
Proof.
  intros H. rewrite filter_app. simpl. rewrite Nat.eqb_refl. simpl.
  rewrite map_app in H. simpl in H.
  assert (Hx : ~ In (tid x) (map tid l1 ++ map tid l2)).
  { apply NoDup_remove_2 in H. exact H. }
  assert (K : forall l, ~ In (tid x) (map tid l) ->
              filter (fun y => negb (Nat.eqb (tid y) (tid x))) l = l).
  { induction l as [|a l IH]; simpl; intros Hn; [reflexivity|].
    destruct (Nat.eqb_spec (tid a) (tid x)) as [E|E]; simpl.
    - exfalso. apply Hn. now left.
    - f_equal. apply IH. intros Hi. apply Hn. now right. }
  rewrite !K; [reflexivity| |]; intros Hi; apply Hx, in_or_app; tauto.
Qed.

(** ** The timer that fires next *)

Lemma earliest_None (ts : list Timer) : earliest ts = None -> ts = [].
Proof.
  destruct ts as [|x r]; simpl; [reflexivity|].
  destruct (earliest r) as [y|]; [|discriminate].
  destruct (due y <? due x); discriminate.
Qed.

(** The timer chosen splits the table: those set before it are due strictly
    later, those set after it are due no earlier. *)
Lemma earliest_Some (ts : list Timer) (x : Timer) :
  earliest ts = Some x ->
  exists l1 l2, ts = l1 ++ x :: l2 /\
    (forall y, In y l1 -> due x < due y) /\
    (forall y, In y l2 -> due x <= due y).
Proof.
  revert x. induction ts as [|a r IH]; intros x; simpl; [discriminate|].
  destruct (earliest r) as [y|] eqn:E.
  - destruct (IH y eq_refl) as (l1 & l2 & -> & H1 & H2).
    destruct (Z.ltb_spec (due y) (due a)) as [L|L]; intros H; injection H as <-.
    + exists (a :: l1), l2. repeat split; [|exact H2].
      intros z [<-|Hz]; [exact L | now apply H1].
    + exists [], (l1 ++ y :: l2). repeat split; [intros z []|].
      intros z Hz. apply in_app_or in Hz.
      destruct Hz as [Hz|[<-|Hz]]; [apply H1 in Hz | | apply H2 in Hz]; lia.
  - apply earliest_None in E. subst r. intros H. injection H as <-.
    exists [], []. repeat split; intros z [].
Qed.

Lemma earliest_In (ts : list Timer) (x : Timer) :
  earliest ts = Some x -> In x ts.
Proof.
  intros H. apply earliest_Some in H. destruct H as (l1 & l2 & -> & _).
  apply in_or_app. right. now left.
Qed.

Lemma earliest_le (ts : list Timer) (x y : Timer) :
  earliest ts = Some x -> In y ts -> due x <= due y.
Proof.
  intros H Hy. apply earliest_Some in H.
  destruct H as (l1 & l2 & -> & H1 & H2).
  apply in_app_or in Hy. destruct Hy as [Hy|[<-|Hy]];
    [apply H1 in Hy | | apply H2 in Hy]; lia.
Qed.

Lemma earliest_exists (ts : list Timer) (y : Timer) :
  In y ts -> exists x, earliest ts = Some x.
Proof.
  intros Hy. destruct (earliest ts) as [x|] eqn:E; [now exists x|].
  apply earliest_None in E. subst. destruct Hy.
Qed.

(** ** Well-formed states stay well-formed *)

Lemma wf_ext (w w' : State) :
  timers w' = timers w -> next_id w' = next_id w ->
  open_timer w' = open_timer w -> close_timer w' = close_timer w ->
  wf w -> wf w'.
Proof.
  intros Ht Hn Ho Hc [F N H SL].
  assert (G : forall s, slot_get s w' = slot_get s w) by (now intros []).
  constructor.
  - rewrite Ht, Hn. exact F.
  - rewrite Ht. exact N.
  - intros s i. rewrite G, Hn. apply H.
  - intros s x. rewrite Ht, G. apply SL.
Qed.

Lemma wf__open (w : State) : wf w -> wf (_open w).
Proof.
  unfold _open. destruct (isOpened w); [tauto|]. now apply wf_ext.
Qed.

Lemma wf__close (w : State) : wf w -> wf (_close w).
Proof.
  unfold _close.
  destruct ((isBrowsing w && isOpened w) || negb (isOpened w)); [tauto|].
  now apply wf_ext.
Qed.

Lemma wf_toggle (w : State) : wf w -> wf (toggle w).
Proof.
  unfold toggle. destruct (isOpened w); [apply wf__close | apply wf__open].
Qed.

Lemma wf_select (e : Path) (w : State) : wf w -> wf (select e w).
Proof.
  unfold select.
  destruct (truthy_attr (getAttribute (doc w) e "disabled")); [tauto|].
  now apply wf_ext.
Qed.

Lemma wf_clearTimeout (h : option nat) (w : State) :
  wf w -> wf (clearTimeout h w).
Proof.
  intros [F N H SL]. destruct h as [i|]; [|now constructor].
  assert (G : forall s, slot_get s (clearTimeout (Some i) w) = slot_get s w)
    by (now intros []).
  constructor; simpl.
  - intros x Hx. apply filter_In in Hx. now apply F.
  - now apply NoDup_map_filter.
  - intros s j. rewrite G. apply H.
  - intros s x Hx. rewrite G. apply filter_In in Hx. now apply SL.
Qed.

(** A new timer under a fresh handle, for a job that belongs to no slot or
    to the slot that records the handle. *)
Lemma wf_debounced (s : Slot) (time : Z) (w : State) :
  wf w -> wf (debounced s (slot_job s) time w).
Proof.
  intros Hw. unfold debounced.
  pose proof (wf_clearTimeout (slot_get s w) w Hw) as [F N H SL].
  assert (Hgone : forall x, In x (timers (clearTimeout (slot_get s w) w)) ->
                    job x <> slot_job s).
  { intros x Hx Hj. destruct (slot_get s w) as [i|] eqn:Es.
    - simpl in Hx. apply filter_In in Hx. destruct Hx as [Hx Hne].
      apply (wf_slot w Hw s x Hx) in Hj. rewrite Es in Hj. injection Hj as ->.
      rewrite Nat.eqb_refl in Hne. discriminate.
    - simpl in Hx. apply (wf_slot w Hw s x Hx) in Hj. congruence. }
  set (w1 := clearTimeout (slot_get s w) w) in *.
  simpl.
  assert (G : forall s',
    slot_get s' (slot_set s (Some (next_id w1))
      (set_timers (S (next_id w1))
         (timers w1 ++ [{| tid := next_id w1; due := now w1 + Z.max 0 time;
                           job := slot_job s |}]) w1))
    = if match s, s' with
         | Slot_open, Slot_open | Slot_close, Slot_close => true
         | _, _ => false
         end
      then Some (next_id w1) else slot_get s' w1).
  { intros s'. destruct s, s'; reflexivity. }
  constructor.
  - destruct s; simpl; intros x Hx; apply in_app_or in Hx;
      (destruct Hx as [Hx|[<-|[]]]; [apply F in Hx; lia | simpl; lia]).
  - assert (K : NoDup (map tid (timers w1 ++
                 [{| tid := next_id w1; due := now w1 + Z.max 0 time;
                     job := slot_job s |}]))).
    { rewrite map_app. simpl. apply NoDup_snoc; [|exact N].
      intros Hi. apply in_map_iff in Hi. destruct Hi as (x & Ex & Hx).
      apply F in Hx. lia. }
    destruct s; exact K.
  - intros s' i. rewrite G.
    assert (Hn : next_id (slot_set s (Some (next_id w1))
                   (set_timers (S (next_id w1))
                      (timers w1 ++ [{| tid := next_id w1;
                                         due := now w1 + Z.max 0 time;
                                         job := slot_job s |}]) w1))
                 = S (next_id w1)) by (now destruct s).
    rewrite Hn.
    destruct s, s'; intros Hi; try (injection Hi as <-; lia);
      apply H in Hi; lia.
  - intros s' x Hx. rewrite G.
    assert (Hx' : In x (timers w1 ++ [{| tid := next_id w1;
                                         due := now w1 + Z.max 0 time;
                                         job := slot_job s |}]))
      by (destruct s; exact Hx).
    apply in_app_or in Hx'. destruct Hx' as [Hx'|[<-|[]]].
    + pose proof (Hgone x Hx') as Hg. pose proof (F x Hx') as Hf.
      pose proof (SL s' x Hx') as Hs.
      destruct s, s'; simpl in *; split; intros K;
        try (exfalso; now apply Hg); try (injection K as K; lia); tauto.
    + pose proof (H Slot_open) as HO. pose proof (H Slot_close) as HC.
      simpl in HO, HC.
      destruct s, s'; simpl; split; intros K;
        try reflexivity; try discriminate;
        try (apply HO in K; lia); apply HC in K; lia.
Qed.

Lemma wf_open (w : State) : wf w -> wf (open w).
Proof. apply (wf_debounced Slot_open). Qed.

Lemma wf_close (w : State) : wf w -> wf (close w).
Proof. apply (wf_debounced Slot_close). Qed.

Lemma wf_debounced_fresh (time : Z) (w : State) :
  wf w -> wf (debounced_fresh Job_hover_open time w).
Proof.
  intros [F N H SL]. unfold debounced_fresh. simpl.
  assert (G : forall s,
    slot_get s (set_timers (S (next_id w))
      (timers w ++ [{| tid := next_id w; due := now w + Z.max 0 time;
                       job := Job_hover_open |}]) w) = slot_get s w)
    by (now intros []).
  constructor; simpl.
  - intros x Hx. apply in_app_or in Hx.
    destruct Hx as [Hx|[<-|[]]]; [apply F in Hx; lia | simpl; lia].
  - rewrite map_app. simpl. apply NoDup_snoc; [|exact N].
    intros Hi. apply in_map_iff in Hi. destruct Hi as (x & Ex & Hx).
    apply F in Hx. lia.
  - intros s i Hi. rewrite G in Hi. apply H in Hi. lia.
  - intros s x Hx. rewrite G. apply in_app_or in Hx.
    destruct Hx as [Hx|[<-|[]]]; [now apply SL|].
    simpl. split; intros K.
    + destruct s; discriminate.
    + apply H in K. lia.
Qed.

Lemma wf_slot_reset (s : Slot) (x : Timer) (w : State) :
  wf w -> In x (timers w) -> job x = slot_job s ->
  wf (slot_set s None (clearTimeout (Some (tid x)) w)).
Proof.
  intros Hw Hx Hj.
  pose proof (wf_clearTimeout (Some (tid x)) w Hw) as [F N H SL].
  set (w1 := clearTimeout (Some (tid x)) w) in *.
  assert (Ht : timers (slot_set s None w1) = timers w1) by (now destruct s).
  assert (Hn : next_id (slot_set s None w1) = next_id w1) by (now destruct s).
  constructor.
  - rewrite Ht, Hn. exact F.
  - rewrite Ht. exact N.
  - rewrite Hn. intros s' i Hi. destruct s, s'; simpl in Hi;
      try discriminate; [apply (H Slot_close) | apply (H Slot_open)]; exact Hi.
  - rewrite Ht. intros s' y Hy.
    assert (Hg : job y <> slot_job s).
    { intros Hjy. simpl in Hy. apply filter_In in Hy. destruct Hy as [Hy Hne].
      apply (wf_slot w Hw s y Hy) in Hjy. apply (wf_slot w Hw s x Hx) in Hj.
      rewrite Hj in Hjy. injection Hjy as E. rewrite E, Nat.eqb_refl in Hne.
      discriminate. }
    pose proof (SL s' y Hy) as Hs.
    destruct s, s'; simpl in *; split; intros K;
      try discriminate; try (exfalso; now apply Hg); tauto.
Qed.

Lemma wf_fire (x : Timer) (w : State) : wf w -> In x (timers w) -> wf (fire x w).
Proof.
  intros Hw Hx. unfold fire. destruct (job x) eqn:J; simpl run_job.
  - apply wf__open.
    apply (wf_ext (slot_set Slot_open None (clearTimeout (Some (tid x)) w)));
      try reflexivity.
    now apply wf_slot_reset.
  - apply wf__close.
    apply (wf_ext (slot_set Slot_close None (clearTimeout (Some (tid x)) w)));
      try reflexivity.
    now apply wf_slot_reset.
  - apply wf_open.
    apply (wf_ext (clearTimeout (Some (tid x)) w)); try reflexivity.
    now apply wf_clearTimeout.
Qed.

Lemma wf_run_timers (fuel : nat) (t : Z) (w : State) :
  wf w -> wf (run_timers fuel t w).
Proof.
  revert w. induction fuel as [|f IH]; intros w Hw; simpl; [exact Hw|].
  destruct (earliest (timers w)) as [x|] eqn:E; [|exact Hw].
  destruct (due x <=? t); [|exact Hw].
  apply IH, wf_fire; [exact Hw | now apply earliest_In].
Qed.

Lemma wf_advance (t : Z) (w : State) : wf w -> wf (advance t w).
Proof.
  intros Hw. unfold advance.
  apply (wf_ext (run_timers (backlog (timers w)) t w)); try reflexivity.
  now apply wf_run_timers.
Qed.

Lemma wf_handleEvent (ev : Event) (w : State) :
  wf w -> wf (fst (handleEvent ev w)).
Proof.
  intros Hw. unfold handleEvent.
  destruct (ev_type ev), (path_eqb (ev_target ev) (trigger w)),
    (contains (menu w) (ev_target ev) || path_eqb (ev_target ev) (menu w));
    cbv zeta; simpl fst;
    try exact Hw; try (now apply wf_close); try (now apply wf_toggle);
    try (now apply wf_select); try (now apply wf__close).
  - apply (wf_ext (debounced_fresh Job_hover_open (timeout w) w));
      try reflexivity.
    now apply wf_debounced_fresh.
  - now apply wf_debounced_fresh.
  - now apply (wf_ext w).
  - apply wf_close. apply (wf_ext (close w)); try reflexivity. now apply wf_close.
  - apply wf_close. now apply (wf_ext w).
Qed.

Lemma wf_deliver (path : list EventTarget) (ev : Event) (w : State) :
  wf w -> wf (deliver path ev w).
Proof.
  revert w. induction path as [|t r IH]; intros w Hw; simpl; [exact Hw|].
  destruct (has_listener (listeners w) t (ev_type ev)); [|now apply IH].
  pose proof (wf_handleEvent ev w Hw) as H.
  destruct (handleEvent ev w) as [w' stopped]. simpl in H.
  destruct stopped; [exact H | now apply IH].
Qed.

Lemma wf_perform (a : Action) (w : State) : wf w -> wf (perform a w).
Proof.
  intros Hw. destruct a; simpl.
  - now apply wf_open.
  - now apply wf_close.
  - now apply wf_toggle.
  - now apply wf_select.
  - now apply wf_deliver.
Qed.

Lemma wf_run (script : list (Z * Action)) (w : State) : wf w -> wf (run script w).
Proof.
  revert w. induction script as [|[t a] r IH]; intros w Hw; simpl; [exact Hw|].
  now apply IH, wf_perform, wf_advance.
Qed.

(** The state the constructor returns is well-formed, and so is every state
    reached from it. *)
Lemma wf_Dropdown (d : Node) (t0 : Z) (o : Options) (w : State) :
  Dropdown d t0 o = Some w -> wf w.
Proof.
  intros H. apply Dropdown_fields in H.
  destruct H as (element & tr & mn & _ & _ & _ & _ & _ & _ & _ & _ & _ & _ & _ & _
                 & Hot & Hct & _ & _ & Hts & _).
  constructor.
  - rewrite Hts. intros x [].
  - rewrite Hts. constructor.
  - intros [] i; simpl; congruence.
  - rewrite Hts. intros s x [].
Qed.

Lemma wf_sample (hover opened browsing : bool) (d : Z) :
  wf (sample hover opened browsing d).
Proof.
  constructor; simpl.
  - intros x [].
  - constructor.
  - intros [] i; simpl; discriminate.
  - intros s x [].
Qed.

(** ** Every advance of the clock ends *)

Lemma backlog_app (l1 l2 : list Timer) :
  backlog (l1 ++ l2) = (backlog l1 + backlog l2)%nat.
Proof.
  induction l1 as [|a l IH]; simpl; [reflexivity|]. rewrite IH. lia.
Qed.

Lemma backlog_filter (g : Timer -> bool) (l : list Timer) :
  (backlog (filter g l) <= backlog l)%nat.
Proof.
  induction l as [|a l IH]; simpl; [lia|].
  destruct (g a); simpl; lia.
Qed.

Lemma backlog_cleared (x : Timer) (l : list Timer) :
  In x l ->
  (backlog (filter (fun y => negb (Nat.eqb (tid y) (tid x))) l) + weight (job x)
   <= backlog l)%nat.
Proof.
  induction l as [|a l IH]; simpl; intros Hx; [destruct Hx|].
  destruct Hx as [->|Hx].
  - rewrite Nat.eqb_refl. simpl.
    pose proof (backlog_filter (fun y => negb (Nat.eqb (tid y) (tid x))) l). lia.
  - specialize (IH Hx). destruct (negb (Nat.eqb (tid a) (tid x))); simpl; lia.
Qed.

Lemma timers__open (w : State) : timers (_open w) = timers w.
Proof. unfold _open. now destruct (isOpened w). Qed.

Lemma timers__close (w : State) : timers (_close w) = timers w.
Proof.
  unfold _close.
  now destruct ((isBrowsing w && isOpened w) || negb (isOpened w)).
Qed.

Lemma backlog_fire (x : Timer) (w : State) :
  In x (timers w) -> (backlog (timers (fire x w)) < backlog (timers w))%nat.
Proof.
  intros Hx. pose proof (backlog_cleared x (timers w) Hx) as H.
  unfold fire. destruct (job x) eqn:J; simpl run_job; simpl in H.
  - rewrite timers__open. simpl. lia.
  - rewrite timers__close. simpl. lia.
  - unfold open, debounced. simpl.
    destruct (open_timer w) as [i|]; simpl; rewrite backlog_app; simpl.
    + pose proof (backlog_filter (fun y => negb (Nat.eqb (tid y) i))
                    (filter (fun y => negb (Nat.eqb (tid y) (tid x))) (timers w))).
      lia.
    + lia.
Qed.

(** With the fuel that [advance] gives it, [run_timers] stops only when no
    pending timer is due. *)
Lemma run_timers_complete (fuel : nat) (t : Z) (w : State) :
  (backlog (timers w) <= fuel)%nat ->
  forall x, In x (timers (run_timers fuel t w)) -> t < due x.
Proof.
  revert w. induction fuel as [|f IH]; intros w Hf x Hx; simpl in Hx.
  - destruct (timers w) as [|a l]; [destruct Hx|].
    simpl in Hf. destruct (job a); simpl in Hf; lia.
  - destruct (earliest (timers w)) as [y|] eqn:E.
    + destruct (Z.leb_spec (due y) t) as [L|L].
      * apply (IH (fire y w)); [|exact Hx].
        pose proof (backlog_fire y w (earliest_In _ _ E)). lia.
      * pose proof (earliest_le _ _ x E Hx). lia.
    + apply earliest_None in E. rewrite E in Hx. destruct Hx.
Qed.

Lemma advance_complete (t : Z) (w : State) (x : Timer) :
  In x (timers (advance t w)) -> t < due x.
Proof.
  unfold advance. simpl. now apply run_timers_complete.
Qed.

(** ** The side of opening *)

Lemma same_open_side_refl (w : State) : same_open_side w w.
Proof. repeat split. tauto. Qed.

Lemma same_open_side_trans (a b c : State) :
  same_open_side a b -> same_open_side b c -> same_open_side a c.
Proof.
  intros (A1 & A2 & A3 & A4 & A5) (B1 & B2 & B3 & B4 & B5).
  repeat split; try congruence. tauto.
Qed.

Lemma same_open_side__close (w : State) : same_open_side w (_close w).
Proof.
  unfold _close.
  destruct ((isBrowsing w && isOpened w) || negb (isOpened w));
    [apply same_open_side_refl|].
  repeat split.
Qed.

Lemma now__close (w : State) : now (_close w) = now w.
Proof.
  unfold _close.
  now destruct ((isBrowsing w && isOpened w) || negb (isOpened w)).
Qed.

Lemma now__open (w : State) : now (_open w) = now w.
Proof. unfold _open. now destruct (isOpened w). Qed.

(** In a well-formed state a timer that leads to [_open] does not share its
    handle with a timer of the debounced [close]. *)
Lemma open_job_other_handle (w : State) (x y : Timer) :
  wf w -> In x (timers w) -> In y (timers w) ->
  job x = Job_close -> is_open_job (job y) = true ->
  negb (Nat.eqb (tid y) (tid x)) = true.
Proof.
  intros Hw Hx Hy Hj Ho.
  destruct (Nat.eqb_spec (tid y) (tid x)) as [E|E]; [|reflexivity].
  apply (wf_slot w Hw Slot_close x Hx) in Hj. rewrite <- E in Hj.
  apply (wf_slot w Hw Slot_close y Hy) in Hj. simpl in Hj.
  rewrite Hj in Ho. discriminate.
Qed.

Lemma fire_close_open_side (x : Timer) (w : State) :
  wf w -> In x (timers w) -> job x = Job_close ->
  same_open_side w (fire x w) /\ now (fire x w) = Z.max (now w) (due x).
Proof.
  intros Hw Hx Hj. unfold fire. rewrite Hj. simpl run_job.
  split; [|now rewrite now__close].
  eapply same_open_side_trans; [|apply same_open_side__close].
  repeat split; [|simpl; tauto].
  unfold pending. simpl. apply filter_absorb.
  intros y Hy Ho. now apply (open_job_other_handle w x y).
Qed.

(** Calling the debounced [close] changes nothing on the side of opening. *)
Lemma close_open_side (w : State) : wf w -> same_open_side w (close w).
Proof.
  intros Hw. unfold close, debounced. simpl.
  destruct (close_timer w) as [i|] eqn:Ec; simpl;
    (repeat split; [|simpl; tauto]); unfold pending; simpl;
    rewrite filter_app; simpl; rewrite app_nil_r; [|reflexivity].
  apply filter_absorb. intros y Hy Ho.
  destruct (Nat.eqb_spec (tid y) i) as [E|E]; [|reflexivity].
  subst i. apply (wf_slot w Hw Slot_close y Hy) in Ec. simpl in Ec.
  rewrite Ec in Ho. discriminate.
Qed.

(** While no timer that leads to [_open] is due, the passing of time changes
    nothing on the side of opening. *)
Lemma run_timers_quiet (fuel : nat) (t : Z) (w : State) :
  wf w ->
  Forall (fun x => t < due x) (pending is_open_job w) ->
  same_open_side w (run_timers fuel t w) /\
  now w <= now (run_timers fuel t w) <= Z.max (now w) t.
Proof.
  revert w. induction fuel as [|f IH]; intros w Hw Hq; simpl.
  - split; [apply same_open_side_refl | lia].
  - destruct (earliest (timers w)) as [x|] eqn:E;
      [|split; [apply same_open_side_refl | lia]].
    destruct (Z.leb_spec (due x) t) as [L|L];
      [|split; [apply same_open_side_refl | lia]].
    pose proof (earliest_In _ _ E) as Hx.
    assert (Hj : job x = Job_close).
    { destruct (job x) eqn:J; [|reflexivity|];
        (exfalso; rewrite Forall_forall in Hq;
         assert (Hp : In x (pending is_open_job w))
           by (apply filter_In; split; [exact Hx | now rewrite J]);
         apply Hq in Hp; lia). }
    destruct (fire_close_open_side x w Hw Hx Hj) as [Hs Hn].
    destruct (IH (fire x w)) as [Hs' Hn'].
    + now apply wf_fire.
    + destruct Hs as (-> & _). exact Hq.
    + split; [eapply same_open_side_trans; eassumption | lia].
Qed.

Lemma advance_quiet (t : Z) (w : State) :
  wf w ->
  Forall (fun x => t < due x) (pending is_open_job w) ->
  same_open_side w (advance t w) /\ now (advance t w) = Z.max (now w) t.
Proof.
  intros Hw Hq.
  destruct (run_timers_quiet (backlog (timers w)) t w Hw Hq) as [Hs Hn'].
  unfold advance. split.
  - eapply same_open_side_trans; [exact Hs|]. repeat split. tauto.
  - simpl. lia.
Qed.

Lemma fired__open (w : State) : fired (_open w) = fired w.
Proof. unfold _open. now destruct (isOpened w). Qed.

Lemma hover_among_open (w : State) :
  pending is_hover_job w =
  filter (fun x => is_hover_job (job x)) (pending is_open_job w).
Proof.
  unfold pending. symmetry. apply filter_absorb.
  intros x _. now destruct (job x).
Qed.

Lemma same_open_side_hover (w w' : State) :
  same_open_side w w' -> pending is_hover_job w' = pending is_hover_job w.
Proof.
  intros (H & _). now rewrite !hover_among_open, H.
Qed.

Lemma armed_ext (w w' : State) (D : Z) :
  same_open_side w w' -> armed w D -> armed w' D.
Proof.
  intros (H & _) (x & Hp & Hx). exists x. now rewrite H.
Qed.

Lemma armed_pending (w : State) (D : Z) (t : Z) :
  armed w D -> t < D -> Forall (fun x => t < due x) (pending is_open_job w).
Proof.
  intros (x & -> & _ & <-) Ht. constructor; [exact Ht | constructor].
Qed.

Lemma armed_no_hover (w : State) (D : Z) :
  armed w D -> pending is_hover_job w = [].
Proof.
  intros (x & Hp & Hj & _). rewrite hover_among_open, Hp. simpl.
  now rewrite Hj.
Qed.

Lemma no_hover_job (w : State) (z : Timer) :
  pending is_hover_job w = [] -> In z (timers w) -> job z <> Job_hover_open.
Proof.
  unfold pending. intros H Hz J.
  pose proof (proj1 (filter_none _ _) H z Hz) as K. simpl in K.
  rewrite J in K. discriminate.
Qed.

(** A call of the debounced [open], when no wrapper of [handleEvent] is
    pending: whatever timer of [open] was pending is gone, and one is pending
    that is due one delay from now. *)
Lemma open_arms (w : State) :
  wf w -> pending is_hover_job w = [] -> 0 <= timeout w ->
  armed (open w) (now w + timeout w) /\
  firings Job_open (open w) = firings Job_open w /\
  onOpen_times (open w) = onOpen_times w /\
  isOpened (open w) = isOpened w /\
  now (open w) = now w.
Proof.
  intros Hw Hh Hd.
  assert (Hnone : forall l,
            (forall z, In z l -> In z (timers w) /\
                                 open_timer w <> Some (tid z)) ->
            filter (fun x => is_open_job (job x)) l = []).
  { intros l Hl. apply filter_none. intros z Hz.
    destruct (Hl z Hz) as [Hz' Hne].
    destruct (job z) eqn:J; simpl; [| reflexivity |]; exfalso.
    - apply (wf_slot w Hw Slot_open z Hz') in J. simpl in J. contradiction.
    - now apply (no_hover_job w z). }
  unfold open, debounced. simpl.
  destruct (open_timer w) as [i|] eqn:Eo; simpl; (split; [|repeat split]);
    exists {| tid := next_id w; due := now w + Z.max 0 (timeout w);
              job := Job_open |};
    unfold pending; simpl; rewrite filter_app; simpl.
  - rewrite Hnone; [simpl; repeat split; lia|].
    intros z Hz. apply filter_In in Hz. destruct Hz as [Hz Hne].
    split; [exact Hz|]. intros K. injection K as ->.
    rewrite Nat.eqb_refl in Hne. discriminate.
  - rewrite Hnone; [simpl; repeat split; lia|].
    intros z Hz. split; [exact Hz | discriminate].
Qed.

(** When the one pending timer of [open] comes due, [_open] runs once, at the
    time the timer was due. *)
Lemma run_timers_armed (fuel : nat) (t : Z) (w : State) (D : Z) :
  wf w -> armed w D -> now w <= D -> D <= t ->
  (backlog (timers w) <= fuel)%nat ->
  pending is_open_job (run_timers fuel t w) = [] /\
  firings Job_open (run_timers fuel t w) = D :: firings Job_open w /\
  (isOpened w = false ->
   onOpen_times (run_timers fuel t w) = D :: onOpen_times w).
Proof.
  revert w. induction fuel as [|f IH]; intros w Hw Ha Hn Ht Hf.
  - exfalso. destruct Ha as (x & Hp & _).
    assert (Hx : In x (timers w)).
    { assert (Hi : In x (pending is_open_job w)) by (rewrite Hp; now left).
      apply filter_In in Hi. tauto. }
    destruct (timers w) as [|a l]; [destruct Hx|].
    simpl in Hf. destruct (job a); simpl in Hf; lia.
  - pose proof Ha as (x & Hp & Hj & Hdue).
    assert (Hx : In x (timers w)).
    { assert (Hi : In x (pending is_open_job w)) by (rewrite Hp; now left).
      apply filter_In in Hi. tauto. }
    destruct (earliest_exists _ _ Hx) as (y & E).
    pose proof (earliest_In _ _ E) as Hy.
    pose proof (earliest_le _ _ x E Hx) as Hle.
    simpl. rewrite E.
    destruct (Z.leb_spec (due y) t) as [L|L]; [|lia].
    pose proof (backlog_fire y w Hy) as Hb.
    destruct (is_open_job (job y)) eqn:Oy.
    + assert (y = x).
      { assert (Hi : In y (pending is_open_job w))
          by (apply filter_In; tauto).
        rewrite Hp in Hi. destruct Hi as [Hi|[]]. now symmetry. }
      subst y.
      assert (Hgone : pending is_open_job (fire x w) = []).
      { unfold fire. rewrite Hj. simpl run_job. unfold pending.
        rewrite timers__open. simpl. apply filter_none.
        intros z Hz. apply filter_In in Hz. destruct Hz as [Hz Hne].
        destruct (is_open_job (job z)) eqn:Oz; [|reflexivity].
        exfalso. assert (Hi : In z (pending is_open_job w))
          by (apply filter_In; tauto).
        rewrite Hp in Hi. destruct Hi as [<-|[]].
        rewrite Nat.eqb_refl in Hne. discriminate. }
      destruct (run_timers_quiet f t (fire x w)) as [(Q1 & Q2 & Q3 & Q4 & Q5) _].
      { now apply wf_fire. }
      { rewrite Hgone. constructor. }
      rewrite Q1, Q3, Q4. split; [exact Hgone|]. split.
      * unfold fire. rewrite Hj. simpl run_job. unfold firings.
        rewrite fired__open. simpl. f_equal. lia.
      * intros Ho. unfold onOpen_times, fire. rewrite Hj. simpl run_job.
        unfold _open. simpl. rewrite Ho. simpl. f_equal. lia.
    + assert (Jy : job y = Job_close) by (destruct (job y); simpl in Oy; congruence).
      destruct (fire_close_open_side y w Hw Hy Jy) as [Hs Hnow].
      destruct (IH (fire y w)) as (R1 & R2 & R3).
      * now apply wf_fire.
      * now apply (armed_ext w).
      * lia.
      * exact Ht.
      * lia.
      * destruct Hs as (S1 & S2 & S3 & S4 & S5).
        split; [exact R1|]. split; [now rewrite R2, S3|].
        intros Ho. rewrite (R3 (S5 Ho)), S4. reflexivity.
Qed.

Lemma advance_armed (t : Z) (w : State) (D : Z) :
  wf w -> armed w D -> now w <= D -> D <= t ->
  firings Job_open (advance t w) = D :: firings Job_open w /\
  (isOpened w = false -> onOpen_times (advance t w) = D :: onOpen_times w).
Proof.
  intros Hw Ha Hn Ht.
  destruct (run_timers_armed (backlog (timers w)) t w D Hw Ha Hn Ht (le_n _))
    as (_ & H1 & H2).
  unfold advance. split; [exact H1 | exact H2].
Qed.

(** ** The two debounced methods do not meet *)

Lemma open_close_side (w : State) :
  wf w ->
  pending is_close_job (open w) = pending is_close_job w /\
  close_timer (open w) = close_timer w /\
  firings Job_close (open w) = firings Job_close w /\
  onClose_times (open w) = onClose_times w.
Proof.
  intros Hw. unfold open, debounced. simpl.
  destruct (open_timer w) as [i|] eqn:Eo; simpl; repeat split;
    unfold pending; simpl; rewrite filter_app; simpl; rewrite app_nil_r;
    [|reflexivity].
  apply filter_absorb. intros y Hy Hc.
  destruct (Nat.eqb_spec (tid y) i) as [E|E]; [|reflexivity].
  subst i. apply (wf_slot w Hw Slot_open y Hy) in Eo. simpl in Eo.
  rewrite Eo in Hc. discriminate.
Qed.

Lemma now_close (w : State) : now (close w) = now w.
Proof.
  unfold close, debounced. simpl. now destruct (close_timer w).
Qed.

(** Calls of the debounced [close], at any times before the pending timer of
    [open] is due, leave that timer pending. *)
Lemma run_closes (script : list (Z * Action)) (w : State) (D : Z) :
  wf w -> armed w D -> now w <= D ->
  Forall (fun ta => snd ta = Call_close /\ fst ta < D) script ->
  wf (run script w) /\ same_open_side w (run script w) /\
  now (run script w) <= D.
Proof.
  revert w. induction script as [|[u a] r IH]; intros w Hw Ha Hn Hs; simpl.
  - split; [exact Hw|]. split; [apply same_open_side_refl | exact Hn].
  - inversion Hs as [|? ? [Hc Hu] Hr]; subst. simpl in Hc, Hu. subst a. simpl.
    destruct (advance_quiet u w Hw (armed_pending w D u Ha Hu)) as [Q Qn].
    pose proof (wf_advance u w Hw) as Hw1.
    pose proof (close_open_side (advance u w) Hw1) as Q'.
    assert (Q2 : same_open_side w (close (advance u w)))
      by (eapply same_open_side_trans; eassumption).
    destruct (IH (close (advance u w))) as (R1 & R2 & R3).
    + now apply wf_close.
    + now apply (armed_ext w).
    + rewrite now_close, Qn. lia.
    + exact Hr.
    + split; [exact R1|]. split; [|exact R3].
      eapply same_open_side_trans; eassumption.
Qed.

(** C9: in a well-formed state, a call of the debounced close() leaves the
    pending timers that lead to _open and the handle of open() as they are,
    and a call of the debounced open() leaves the pending timers of close()
    and its handle as they are.  So, after a call of open(), whatever calls
    of close() are made before the delay has passed, _open still runs when
    the delay has passed. *)
Theorem close_and_open_independent (w : State) :
  wf w ->
  (pending is_open_job (close w) = pending is_open_job w /\
   open_timer (close w) = open_timer w) /\
  (pending is_close_job (open w) = pending is_close_job w /\
   close_timer (open w) = close_timer w) /\
  (forall (script : list (Z * Action)) (T : Z),
     pending is_hover_job w = [] ->
     0 <= timeout w ->
     Forall (fun ta => snd ta = Call_close /\ fst ta < now w + timeout w) script ->
     now w + timeout w <= T ->
     firings Job_open (advance T (run script (open w))) =
       (now w + timeout w) :: firings Job_open w).
Proof.
  intros Hw. split; [|split].
  - destruct (close_open_side w Hw) as (H1 & H2 & _). now split.
  - destruct (open_close_side w Hw) as (H1 & H2 & _). now split.
  - intros script T Hh Hd Hs HT.
    destruct (open_arms w Hw Hh Hd) as (Ha & Hf & _ & _ & Hn).
    destruct (run_closes script (open w) (now w + timeout w))
      as (R1 & R2 & R3); try assumption.
    + now apply wf_open.
    + lia.
    + destruct (advance_armed T (run script (open w)) (now w + timeout w))
        as [F _]; try assumption.
      * now apply (armed_ext (open w)).
      * rewrite F. destruct R2 as (_ & _ & -> & _). now rewrite Hf.
Qed.

Lemma close_and_open_independent_witness :
  firings Job_open
    (advance 400 (run [(100, Call_close); (399, Call_close)]
                    (open (sample true false false 400)))) = [400] /\
  pending is_open_job (close (open (sample true false false 400))) =
    pending is_open_job (open (sample true false false 400)).
Proof.
  split.
  - destruct (close_and_open_independent (sample true false false 400)
                (wf_sample true false false 400)) as (_ & _ & H).
    apply (H [(100, Call_close); (399, Call_close)] 400); simpl.
    + reflexivity.
    + lia.
    + repeat constructor.
    + lia.
  - destruct (close_and_open_independent (open (sample true false false 400))
                (wf_open _ (wf_sample true false false 400))) as ((H & _) & _).
    exact H.
Defined.

(** ** A burst of calls of the debounced open *)

Lemma run_burst_cons (a : Action) (t : Z) (ts : list Z) (w : State) :
  run (burst a (t :: ts)) w = run (burst a ts) (perform a (advance t w)).
Proof. reflexivity. Qed.

Lemma last_cons_cons (u t : Z) (r : list Z) : last (u :: r) t = last r u.
Proof.
  revert u t. induction r as [|v r IH]; intros u t; [reflexivity|].
  change (last (u :: v :: r) t) with (last (v :: r) t).
  rewrite IH. symmetry. apply IH.
Qed.

Lemma last_rapid_le (d : Z) (ts : list Z) (t : Z) :
  rapid d t ts -> t <= last ts t.
Proof.
  revert t. induction ts as [|u r IH]; intros t H; simpl; [lia|].
  destruct H as [Hu Hr]. specialize (IH u Hr).
  change (t <= last (u :: r) t). rewrite last_cons_cons. lia.
Qed.

(** Each call within the delay of the one before replaces the pending timer
    by one due a delay later; nothing fires meanwhile. *)
Lemma burst_open_armed (ts : list Z) (t : Z) (w : State) :
  wf w -> armed w (t + timeout w) -> now w = t -> 0 <= timeout w ->
  rapid (timeout w) t ts ->
  let w' := run (burst Call_open ts) w in
  wf w' /\ armed w' (last ts t + timeout w) /\ now w' = last ts t /\
  firings Job_open w' = firings Job_open w /\
  onOpen_times w' = onOpen_times w /\
  (isOpened w = false -> isOpened w' = false).
Proof.
  revert t w. induction ts as [|u r IH]; intros t w Hw Ha Hn Hd Hr.
  - simpl. split; [exact Hw|]. split; [exact Ha|]. split; [exact Hn|].
    repeat split. tauto.
  - destruct Hr as [Hu Hr]. rewrite run_burst_cons. simpl perform.
    destruct (advance_quiet u w Hw) as [Q Qn].
    { apply (armed_pending w (t + timeout w)); [exact Ha | lia]. }
    pose proof (wf_advance u w Hw) as Hw1.
    pose proof (same_setting_advance u w) as (_ & _ & _ & _ & _ & St & _).
    destruct (open_arms (advance u w) Hw1) as (A1 & A2 & A3 & A4 & A5).
    { rewrite (same_open_side_hover w _ Q).
      now apply (armed_no_hover w (t + timeout w)). }
    { now rewrite St. }
    pose proof (same_setting_open (advance u w)) as (_ & _ & _ & _ & _ & So & _).
    assert (Ed : timeout (open (advance u w)) = timeout w) by congruence.
    assert (En : now (advance u w) = u) by lia.
    specialize (IH u (open (advance u w))).
    rewrite Ed in IH. cbv zeta in IH.
    destruct IH as (R1 & R2 & R3 & R4 & R5 & R6).
    + now apply wf_open.
    + rewrite St, En in A1. exact A1.
    + now rewrite A5.
    + exact Hd.
    + exact Hr.
    + cbv zeta. rewrite last_cons_cons.
      destruct Q as (_ & _ & Q3 & Q4 & Q5).
      split; [exact R1|]. split; [exact R2|]. split; [exact R3|].
      split; [congruence|]. split; [congruence|].
      intros Ho. apply R6. rewrite A4. now apply Q5.
Qed.

(** C2, as written, fails: one call of the debounced open() on a widget that
    is already opened runs _open after the delay, and _open returns at once,
    so that onOpen is not called. *)
Lemma opened_widget_no_onOpen :
  ~ collapses_to_one_onOpen (sample false true false 400) 0 [].
Proof.
  unfold collapses_to_one_onOpen. intros [_ H]. vm_compute in H. discriminate H.
Qed.

(** C2, amended: N calls of the debounced open(), the first at a time when
    nothing that leads to _open is due, each less than the delay after the
    one before, lead to exactly one run of _open, the delay after the last
    call and not before; on a widget that is closed when the burst starts
    that run calls onOpen exactly once, at that time. *)
Theorem debounce_collapse (w : State) (t : Z) (ts : list Z) (T : Z) :
  wf w ->
  pending is_hover_job w = [] ->
  Forall (fun x => t < due x) (pending is_open_job w) ->
  now w <= t ->
  0 <= timeout w ->
  rapid (timeout w) t ts ->
  last ts t + timeout w <= T ->
  let w' := advance T (run (burst Call_open (t :: ts)) w) in
  firings Job_open w' = (last ts t + timeout w) :: firings Job_open w /\
  (isOpened w = false ->
   onOpen_times w' = (last ts t + timeout w) :: onOpen_times w) /\
  (forall T', T' < last ts t + timeout w ->
   firings Job_open (advance T' (run (burst Call_open (t :: ts)) w)) =
   firings Job_open w).
Proof.
  intros Hw Hh Hq Hn Hd Hr HT.
  rewrite run_burst_cons. simpl perform.
  destruct (advance_quiet t w Hw Hq) as [Q Qn].
  pose proof (wf_advance t w Hw) as Hw1.
  pose proof (same_setting_advance t w) as (_ & _ & _ & _ & _ & St & _).
  destruct (open_arms (advance t w) Hw1) as (A1 & A2 & A3 & A4 & A5).
  { now rewrite (same_open_side_hover w _ Q). }
  { now rewrite St. }
  pose proof (same_setting_open (advance t w)) as (_ & _ & _ & _ & _ & So & _).
  assert (Ed : timeout (open (advance t w)) = timeout w) by congruence.
  assert (En : now (advance t w) = t) by lia.
  pose proof (burst_open_armed ts t (open (advance t w))) as B.
  rewrite Ed in B. cbv zeta in B.
  destruct B as (R1 & R2 & R3 & R4 & R5 & R6).
  - now apply wf_open.
  - rewrite St, En in A1. exact A1.
  - now rewrite A5.
  - exact Hd.
  - exact Hr.
  - destruct (advance_armed T (run (burst Call_open ts) (open (advance t w)))
                (last ts t + timeout w)) as [F1 F2]; try assumption.
    + pose proof (last_rapid_le (timeout w) ts t Hr). lia.
    + cbv zeta. destruct Q as (_ & _ & Q3 & Q4 & Q5). split; [|split].
      * rewrite F1. congruence.
      * intros Ho. rewrite F2; [congruence|].
        apply R6. rewrite A4. now apply Q5.
      * intros T' HT'.
        destruct (advance_quiet T' (run (burst Call_open ts) (open (advance t w))))
          as [(_ & _ & Y3 & _) _]; [exact R1| |].
        { now apply (armed_pending _ (last ts t + timeout w)). }
        congruence.
Qed.

Lemma debounce_collapse_witness :
  firings Job_open
    (advance 1500 (run (burst Call_open [0; 300; 699; 1000])
                     (sample false false false 400))) = [1400] /\
  onOpen_times
    (advance 1500 (run (burst Call_open [0; 300; 699; 1000])
                     (sample false false false 400))) = [1400].
Proof.
  assert (Hr : rapid 400 0 [300; 699; 1000]) by (simpl; repeat split; lia).
  assert (Hn : now (sample false false false 400) <= 0) by (simpl; lia).
  assert (Hd : 0 <= timeout (sample false false false 400)) by (simpl; lia).
  assert (HT : last [300; 699; 1000] 0 + timeout (sample false false false 400)
               <= 1500) by (simpl; lia).
  destruct (debounce_collapse (sample false false false 400) 0 [300; 699; 1000]
              1500 (wf_sample false false false 400) eq_refl
              (Forall_nil _) Hn Hd Hr HT) as (H1 & H2 & _).
  split; [exact H1 | exact (H2 eq_refl)].
Defined.

(** ** Pointer-enters on the trigger *)

Lemma has_listener_add (t t' : EventTarget) (e e' : EventType) (w : State) :
  has_listener (listeners (addEventListener t e w)) t' e' =
  has_listener (listeners w) t' e' || (EventTarget_eqb t t' && EventType_eqb e e').
Proof.
  unfold addEventListener.
  destruct (has_listener (listeners w) t e) eqn:E.
  - destruct (EventTarget_eqb t t' && EventType_eqb e e') eqn:Q;
      [|now rewrite orb_false_r].
    apply andb_true_iff in Q. destruct Q as [Q1 Q2].
    assert (t = t').
    { destruct t, t'; simpl in Q1; try discriminate; [reflexivity|].
      apply path_eqb_eq in Q1. now subst. }
    assert (e = e') by (destruct e, e'; simpl in Q2; congruence).
    subst. now rewrite E.
  - simpl. unfold has_listener. rewrite existsb_app. simpl.
    now rewrite orb_false_r.
Qed.

(** Who listens to pointer-enters in hover mode: the trigger and the menu. *)
Lemma hover_listens_mouseover (w : State) (t : EventTarget) :
  hover_ready w ->
  has_listener (listeners w) t mouseover =
  EventTarget_eqb (Elem (trigger w)) t || EventTarget_eqb (Elem (menu w)) t.
Proof.
  intros (Hr & Hh & _). rewrite Hr. unfold registerToggleHandlers.
  change (openBy (set_listeners [] w)) with (openBy w). rewrite Hh.
  rewrite !has_listener_add. simpl.
  rewrite !andb_false_r, !andb_true_r, !orb_false_r. reflexivity.
Qed.

Lemma ancestors_head (p : Path) :
  exists rest, ancestors_or_self p = p :: rest /\
    forall q, In q rest -> (List.length q < List.length p)%nat /\ contains q p = true.
Proof.
  induction p as [|i p (rest & E & H)]; simpl.
  - exists []. split; [reflexivity | intros q []].
  - rewrite E. simpl. exists (map (cons i) rest ++ [[]]). split; [reflexivity|].
    intros q Hq. apply in_app_or in Hq. destruct Hq as [Hq|[<-|[]]].
    + apply in_map_iff in Hq. destruct Hq as (q' & <- & Hq').
      destruct (H q' Hq') as [L C]. simpl. rewrite Nat.eqb_refl. split; [lia|exact C].
    + simpl. split; [lia | reflexivity].
Qed.

Lemma deliver_unheard (path : list EventTarget) (ev : Event) (w : State) :
  (forall t, In t path -> has_listener (listeners w) t (ev_type ev) = false) ->
  deliver path ev w = w.
Proof.
  induction path as [|t r IH]; intros H; simpl; [reflexivity|].
  rewrite (H t (or_introl eq_refl)). apply IH. intros q Hq. apply H. now right.
Qed.

(** In hover mode a pointer-enter on the trigger is heard once, by the
    listener on the trigger, which calls a fresh wrapper around [open]. *)
Lemma dispatch_enter (w : State) :
  hover_ready w ->
  dispatch {| ev_type := mouseover; ev_target := trigger w |} w =
  debounced_fresh Job_hover_open (timeout w) w.
Proof.
  intros Hr. pose proof Hr as (_ & _ & Hc).
  unfold dispatch, propagation_path. simpl ev_target.
  destruct (ancestors_head (trigger w)) as (rest & -> & Hrest).
  change (deliver (Elem (trigger w) :: map Elem rest ++ [Window])
            {| ev_type := mouseover; ev_target := trigger w |} w =
          debounced_fresh Job_hover_open (timeout w) w).
  simpl deliver. simpl ev_type.
  rewrite (hover_listens_mouseover w _ Hr). simpl.
  rewrite path_eqb_refl. simpl.
  rewrite isMenu_contains, Hc.
  apply deliver_unheard. simpl ev_type.
  intros t Ht.
  change (listeners (debounced_fresh Job_hover_open (timeout w) w))
    with (listeners w).
  rewrite (hover_listens_mouseover w _ Hr).
  apply in_app_or in Ht. destruct Ht as [Ht|[<-|[]]]; [|reflexivity].
  apply in_map_iff in Ht. destruct Ht as (q & <- & Hq).
  destruct (Hrest q Hq) as [L C]. simpl.
  destruct (path_eqb (trigger w) q) eqn:E1.
  - apply path_eqb_eq in E1. subst q. lia.
  - destruct (path_eqb (menu w) q) eqn:E2; [|reflexivity].
    apply path_eqb_eq in E2. subst q. congruence.
Qed.

Lemma inner_among_open (w : State) :
  pending is_Job_open w =
  filter (fun x => is_Job_open (job x)) (pending is_open_job w).
Proof.
  unfold pending. symmetry. apply filter_absorb.
  intros x _. now destruct (job x).
Qed.

Lemma same_open_side_hov (w w' : State) :
  same_open_side w w' -> hov w' = hov w /\ inn w' = inn w.
Proof.
  intros (H & _). unfold hov, inn.
  now rewrite !hover_among_open, !inner_among_open, H.
Qed.

Lemma rapid_le_all (d : Z) (hs : list Z) (h : Z) :
  rapid d h hs -> forall z, In z hs -> h <= z.
Proof.
  revert h. induction hs as [|u r IH]; intros h H z Hz; [destruct Hz|].
  destruct H as [Hu Hr]. destruct Hz as [<-|Hz]; [lia|].
  specialize (IH u Hr z Hz). lia.
Qed.

Lemma rapid_snoc (d : Z) (hs : list Z) (h v : Z) :
  rapid d h hs -> last hs h <= v < last hs h + d -> rapid d h (hs ++ [v]).
Proof.
  revert h. induction hs as [|u r IH]; intros h H Hv.
  - simpl in *. tauto.
  - destruct H as [Hu Hr]. rewrite last_cons_cons in Hv.
    simpl. split; [exact Hu | now apply IH].
Qed.

Lemma last_snoc (hs : list Z) (h v : Z) : last (hs ++ [v]) h = v.
Proof. apply last_last. Qed.

(** A call of the debounced [open] in any well-formed state: the wrappers
    stay pending, and the one pending timer of [open] is the new one. *)
Lemma open_effect (w : State) :
  wf w ->
  pending is_hover_job (open w) = pending is_hover_job w /\
  pending is_Job_open (open w) =
    [{| tid := next_id w; due := now w + Z.max 0 (timeout w); job := Job_open |}] /\
  firings Job_open (open w) = firings Job_open w /\
  onOpen_times (open w) = onOpen_times w /\
  isOpened (open w) = isOpened w /\
  now (open w) = now w.
Proof.
  intros Hw.
  assert (Hkeep : forall i, open_timer w = Some i ->
            filter (fun x => is_hover_job (job x))
              (filter (fun x => negb (Nat.eqb (tid x) i)) (timers w)) =
            filter (fun x => is_hover_job (job x)) (timers w)).
  { intros i Hi. apply filter_absorb. intros z Hz Hh.
    destruct (Nat.eqb_spec (tid z) i) as [E|E]; [|reflexivity].
    subst i. apply (wf_slot w Hw Slot_open z Hz) in Hi. simpl in Hi.
    rewrite Hi in Hh. discriminate. }
  assert (Hnone : forall l,
            (forall z, In z l -> In z (timers w) /\
                                 open_timer w <> Some (tid z)) ->
            filter (fun x => is_Job_open (job x)) l = []).
  { intros l Hl. apply filter_none. intros z Hz.
    destruct (Hl z Hz) as [Hz' Hne].
    destruct (job z) eqn:J; simpl; try reflexivity. exfalso.
    apply (wf_slot w Hw Slot_open z Hz') in J. simpl in J. contradiction. }
  unfold open, debounced. simpl.
  destruct (open_timer w) as [i|] eqn:Eo; simpl;
    (split; [|split; [|repeat split]]); unfold pending; simpl;
    rewrite filter_app; simpl; rewrite ?app_nil_r.
  - now apply Hkeep.
  - rewrite Hnone; [reflexivity|].
    intros z Hz. apply filter_In in Hz. destruct Hz as [Hz Hne].
    split; [exact Hz|]. intros K. injection K as ->.
    rewrite Nat.eqb_refl in Hne. discriminate.
  - reflexivity.
  - rewrite Hnone; [reflexivity|].
    intros z Hz. split; [exact Hz | discriminate].
Qed.

(** The wrapper that fires next is the first of the burst still pending; it
    replaces the pending timer of [open] by one due a delay later. *)
Lemma fire_hover (y : Timer) (w : State) (h : Z) (hs : list Z) :
  wf w -> relay w h hs -> 0 <= timeout w ->
  earliest (timers w) = Some y -> job y = Job_hover_open ->
  due y = h /\
  hov (fire y w) = hs /\
  inn (fire y w) = [Z.max (now w) h + timeout w] /\
  firings Job_open (fire y w) = firings Job_open w /\
  onOpen_times (fire y w) = onOpen_times w /\
  isOpened (fire y w) = isOpened w /\
  now (fire y w) = Z.max (now w) h.
Proof.
  intros Hw (Hhov & Hrap & _ & _) Hd E Hj.
  destruct (earliest_Some _ _ E) as (l1 & l2 & Ht & H1 & H2).
  assert (Hsplit : filter (fun x => is_hover_job (job x)) l1 = [] /\
                   due y = h /\
                   hs = map due (filter (fun x => is_hover_job (job x)) l2)).
  { unfold hov, pending in Hhov. rewrite Ht, filter_app in Hhov.
    simpl in Hhov. rewrite Hj in Hhov. simpl in Hhov.
    destruct (filter (fun x => is_hover_job (job x)) l1) as [|q qs] eqn:F1.
    - simpl in Hhov. injection Hhov as Ea Eb. repeat split; congruence.
    - exfalso. simpl in Hhov. injection Hhov as Ea Eb.
      assert (Hq : In q l1).
      { assert (Hi : In q (q :: qs)) by now left.
        rewrite <- F1 in Hi. apply filter_In in Hi. tauto. }
      apply H1 in Hq.
      assert (Hy : In (due y) hs).
      { rewrite <- Eb, map_app. apply in_or_app. right. now left. }
      pose proof (rapid_le_all _ _ _ Hrap _ Hy). lia. }
  destruct Hsplit as (F1 & Ey & Ehs).
  split; [exact Ey|].
  unfold fire. rewrite Hj. simpl run_job.
  set (w1 := set_fired _ _).
  assert (Hw1 : wf w1).
  { apply (wf_ext (clearTimeout (Some (tid y)) w)); try reflexivity.
    now apply wf_clearTimeout. }
  assert (Ht1 : timers w1 = l1 ++ l2).
  { unfold w1. simpl. rewrite Ht. apply filter_tid_cut.
    rewrite <- Ht. apply (wf_nodup w Hw). }
  destruct (open_effect w1 Hw1) as (O1 & O2 & O3 & O4 & O5 & O6).
  unfold hov, inn. rewrite O1, O2, O3, O4, O5, O6.
  unfold pending. rewrite Ht1, filter_app, F1. simpl.
  repeat split; try congruence.
  unfold w1. simpl. rewrite Ey. f_equal. lia.
Qed.

Lemma relay_first_pending (w : State) (h : Z) (hs : list Z) :
  relay w h hs -> exists p, In p (timers w) /\ due p = h.
Proof.
  intros (Hhov & _). unfold hov in Hhov.
  assert (Hi : In h (map due (pending is_hover_job w)))
    by (rewrite Hhov; now left).
  apply in_map_iff in Hi. destruct Hi as (p & Ep & Hp).
  apply filter_In in Hp. exists p. tauto.
Qed.

(** In a burst under way the pending timer of [open] is never the next to
    fire: the first pending wrapper is due before it. *)
Lemma relay_not_inner (y : Timer) (w : State) (h : Z) (hs : list Z) :
  relay w h hs -> earliest (timers w) = Some y -> job y <> Job_open.
Proof.
  intros Hr E J.
  destruct (relay_first_pending w h hs Hr) as (p & Hp & Ep).
  pose proof (earliest_le _ _ p E Hp) as Hle.
  destruct Hr as (_ & _ & _ & Hinn). rewrite Forall_forall in Hinn.
  assert (Hi : In (due y) (inn w)).
  { unfold inn. apply in_map. apply filter_In.
    split; [now apply earliest_In | now rewrite J]. }
  apply Hinn in Hi. lia.
Qed.

Lemma relay_after_close (y : Timer) (w : State) (h : Z) (hs : list Z) :
  wf w -> relay w h hs -> In y (timers w) -> job y = Job_close ->
  due y <= last hs h ->
  relay (fire y w) h hs.
Proof.
  intros Hw (R1 & R2 & R3 & R4) Hy J Hle.
  destruct (fire_close_open_side y w Hw Hy J) as [Hs Hn].
  destruct (same_open_side_hov _ _ Hs) as [Eh Ei].
  pose proof (same_setting_fire y w) as (_ & _ & _ & _ & _ & St & _).
  unfold relay. rewrite Eh, Ei, St, Hn.
  split; [exact R1|]. split; [exact R2|]. split; [lia | exact R4].
Qed.

Lemma relay_after_hover (y : Timer) (w : State) (h h2 : Z) (hs2 : list Z) :
  wf w -> relay w h (h2 :: hs2) -> 0 <= timeout w ->
  earliest (timers w) = Some y -> job y = Job_hover_open ->
  relay (fire y w) h2 hs2.
Proof.
  intros Hw Hr Hd E J.
  destruct (fire_hover y w h (h2 :: hs2) Hw Hr Hd E J)
    as (_ & F1 & F2 & _ & _ & _ & F6).
  destruct Hr as (_ & [Hh2 Hrap] & Hnow & _).
  pose proof (same_setting_fire y w) as (_ & _ & _ & _ & _ & St & _).
  rewrite last_cons_cons in Hnow.
  pose proof (last_rapid_le _ _ _ Hrap) as Hl.
  unfold relay. rewrite F1, F2, F6, St.
  split; [reflexivity|]. split; [exact Hrap|]. split; [lia|].
  constructor; [lia | constructor].
Qed.

(** While the burst goes on, no [_open] runs: time passing up to before the
    last wrapper is due leaves a burst under way, with the same last
    wrapper. *)
Lemma run_timers_relay (fuel : nat) (t : Z) (w : State) (h : Z) (hs : list Z) :
  wf w -> relay w h hs -> 0 <= timeout w -> t < last hs h ->
  (exists h' hs', relay (run_timers fuel t w) h' hs' /\ last hs' h' = last hs h) /\
  firings Job_open (run_timers fuel t w) = firings Job_open w /\
  onOpen_times (run_timers fuel t w) = onOpen_times w /\
  (isOpened w = false -> isOpened (run_timers fuel t w) = false) /\
  now w <= now (run_timers fuel t w).
Proof.
  revert w h hs. induction fuel as [|f IH]; intros w h hs Hw Hr Hd Ht.
  - simpl. split; [now exists h, hs|]. repeat split; [tauto | lia].
  - simpl. destruct (earliest (timers w)) as [y|] eqn:E;
      [|split; [now exists h, hs|]; repeat split; [tauto | lia]].
    destruct (Z.leb_spec (due y) t) as [L|L];
      [|split; [now exists h, hs|]; repeat split; [tauto | lia]].
    pose proof (earliest_In _ _ E) as Hy.
    pose proof (same_setting_fire y w) as (_ & _ & _ & _ & _ & St & _).
    destruct (job y) eqn:J.
    + exfalso. now apply (relay_not_inner y w h hs).
    + destruct (fire_close_open_side y w Hw Hy J) as [(_ & _ & S3 & S4 & S5) Hn].
      destruct (IH (fire y w) h hs) as (R1 & R2 & R3 & R4 & R5).
      * now apply wf_fire.
      * apply relay_after_close; try assumption. lia.
      * now rewrite St.
      * exact Ht.
      * split; [exact R1|]. split; [congruence|]. split; [congruence|].
        split; [tauto | lia].
    + destruct (fire_hover y w h hs Hw Hr Hd E J)
        as (Ey & _ & _ & F3 & F4 & F5 & F6).
      destruct hs as [|h2 hs2]; [simpl in Ht; lia|].
      rewrite last_cons_cons in Ht.
      destruct (IH (fire y w) h2 hs2) as (R1 & R2 & R3 & R4 & R5).
      * now apply wf_fire.
      * now apply (relay_after_hover y w h).
      * now rewrite St.
      * exact Ht.
      * rewrite last_cons_cons.
        split; [exact R1|]. split; [congruence|]. split; [congruence|].
        split; [|lia]. intros Ho. apply R4. congruence.
Qed.

Lemma no_hover_inner (w : State) :
  pending is_hover_job w = [] -> pending is_open_job w = pending is_Job_open w.
Proof.
  intros H. unfold pending. apply filter_ext_in.
  intros z Hz. destruct (job z) eqn:J; try reflexivity.
  exfalso. now apply (no_hover_job w z).
Qed.

(** Once the last wrapper has fired, the timer it set is the only thing left
    on the side of opening. *)
Lemma armed_after_last_hover (y : Timer) (w : State) (h : Z) :
  wf w -> relay w h [] -> 0 <= timeout w ->
  earliest (timers w) = Some y -> job y = Job_hover_open ->
  armed (fire y w) (h + timeout w) /\ now (fire y w) = h.
Proof.
  intros Hw Hr Hd E J.
  destruct (fire_hover y w h [] Hw Hr Hd E J) as (_ & F1 & F2 & _ & _ & _ & F6).
  destruct Hr as (_ & _ & Hnow & _). simpl in Hnow.
  assert (Hh : pending is_hover_job (fire y w) = []).
  { unfold hov in F1. now apply map_eq_nil in F1. }
  split; [|lia].
  unfold armed. rewrite (no_hover_inner _ Hh).
  unfold inn in F2.
  destruct (pending is_Job_open (fire y w)) as [|x [|x' r]] eqn:P;
    simpl in F2; try discriminate.
  exists x. split; [reflexivity|]. split.
  - assert (Hi : In x (pending is_Job_open (fire y w))) by (rewrite P; now left).
    apply filter_In in Hi. destruct Hi as [_ Hi].
    destruct (job x); simpl in Hi; congruence.
  - injection F2 as F2. lia.
Qed.

(** When time passes beyond the last wrapper and one delay more, [_open]
    runs once, one delay after the last wrapper was due. *)
Lemma run_timers_relay_drain (fuel : nat) (t : Z) (w : State) (h : Z) (hs : list Z) :
  wf w -> relay w h hs -> 0 <= timeout w ->
  last hs h + timeout w <= t ->
  (backlog (timers w) <= fuel)%nat ->
  firings Job_open (run_timers fuel t w) =
    (last hs h + timeout w) :: firings Job_open w /\
  (isOpened w = false ->
   onOpen_times (run_timers fuel t w) =
     (last hs h + timeout w) :: onOpen_times w).
Proof.
  revert w h hs. induction fuel as [|f IH]; intros w h hs Hw Hr Hd Ht Hf.
  - exfalso. destruct (relay_first_pending w h hs Hr) as (p & Hp & _).
    destruct (timers w) as [|a l]; [destruct Hp|].
    simpl in Hf. destruct (job a); simpl in Hf; lia.
  - destruct (relay_first_pending w h hs Hr) as (p & Hp & Ep).
    destruct (earliest_exists _ _ Hp) as (y & E).
    pose proof (earliest_In _ _ E) as Hy.
    pose proof (earliest_le _ _ p E Hp) as Hle.
    pose proof Hr as (_ & Hrap & _).
    pose proof (last_rapid_le _ _ _ Hrap) as Hl.
    pose proof (backlog_fire y w Hy) as Hb.
    pose proof (same_setting_fire y w) as (_ & _ & _ & _ & _ & St & _).
    simpl. rewrite E.
    destruct (Z.leb_spec (due y) t) as [L|L]; [|lia].
    destruct (job y) eqn:J.
    + exfalso. now apply (relay_not_inner y w h hs).
    + destruct (fire_close_open_side y w Hw Hy J) as [(_ & _ & S3 & S4 & S5) Hn].
      destruct (IH (fire y w) h hs) as (R1 & R2).
      * now apply wf_fire.
      * apply relay_after_close; try assumption. lia.
      * now rewrite St.
      * now rewrite St.
      * lia.
      * rewrite St in R1, R2. split; [congruence|].
        intros Ho. rewrite (R2 (S5 Ho)). congruence.
    + destruct (fire_hover y w h hs Hw Hr Hd E J)
        as (Ey & _ & _ & F3 & F4 & F5 & F6).
      destruct hs as [|h2 hs2].
      * destruct (armed_after_last_hover y w h Hw Hr Hd E J) as [Ha Hn].
        simpl in Ht. simpl last.
        destruct (run_timers_armed f t (fire y w) (h + timeout w))
          as (_ & A1 & A2); try assumption; try lia.
        { now apply wf_fire. }
        split; [congruence|].
        intros Ho. rewrite A2; congruence.
      * rewrite last_cons_cons in *.
        destruct (IH (fire y w) h2 hs2) as (R1 & R2).
        { now apply wf_fire. }
        { now apply (relay_after_hover y w h). }
        { now rewrite St. }
        { now rewrite St. }
        { lia. }
        rewrite St in R1, R2. split; [congruence|].
        intros Ho. rewrite R2; congruence.
Qed.

(** Until then, no [_open] runs. *)
Lemma run_timers_relay_early (fuel : nat) (t : Z) (w : State) (h : Z) (hs : list Z) :
  wf w -> relay w h hs -> 0 <= timeout w ->
  t < last hs h + timeout w ->
  firings Job_open (run_timers fuel t w) = firings Job_open w /\
  onOpen_times (run_timers fuel t w) = onOpen_times w.
Proof.
  revert w h hs. induction fuel as [|f IH]; intros w h hs Hw Hr Hd Ht;
    [now split|].
  simpl. destruct (earliest (timers w)) as [y|] eqn:E; [|now split].
  destruct (Z.leb_spec (due y) t) as [L|L]; [|now split].
  destruct (relay_first_pending w h hs Hr) as (p & Hp & Ep).
  pose proof (earliest_In _ _ E) as Hy.
  pose proof (earliest_le _ _ p E Hp) as Hle.
  pose proof Hr as (_ & Hrap & _).
  pose proof (last_rapid_le _ _ _ Hrap) as Hl.
  pose proof (same_setting_fire y w) as (_ & _ & _ & _ & _ & St & _).
  destruct (job y) eqn:J.
  - exfalso. now apply (relay_not_inner y w h hs).
  - destruct (fire_close_open_side y w Hw Hy J) as [(_ & _ & S3 & S4 & _) _].
    destruct (IH (fire y w) h hs) as (R1 & R2).
    + now apply wf_fire.
    + apply relay_after_close; try assumption. lia.
    + now rewrite St.
    + now rewrite St.
    + split; congruence.
  - destruct (fire_hover y w h hs Hw Hr Hd E J)
      as (_ & _ & _ & F3 & F4 & _ & _).
    destruct hs as [|h2 hs2].
    + destruct (armed_after_last_hover y w h Hw Hr Hd E J) as [Ha _].
      simpl in Ht.
      destruct (run_timers_quiet f t (fire y w)) as [(_ & _ & Q3 & Q4 & _) _].
      * now apply wf_fire.
      * now apply (armed_pending _ (h + timeout w)).
      * split; congruence.
    + rewrite last_cons_cons in Ht.
      destruct (IH (fire y w) h2 hs2) as (R1 & R2).
      * now apply wf_fire.
      * now apply (relay_after_hover y w h).
      * now rewrite St.
      * now rewrite St.
      * split; congruence.
Qed.

Lemma now_open (w : State) : now (open w) = now w.
Proof.
  unfold open, debounced. simpl. now destruct (open_timer w).
Qed.

Lemma now_fire (y : Timer) (w : State) :
  now (fire y w) = Z.max (now w) (due y).
Proof.
  unfold fire. destruct (job y); simpl run_job.
  - now rewrite now__open.
  - now rewrite now__close.
  - now rewrite now_open.
Qed.

Lemma now_run_timers (fuel : nat) (t : Z) (w : State) :
  now (run_timers fuel t w) <= Z.max (now w) t.
Proof.
  revert w. induction fuel as [|f IH]; intros w; simpl; [lia|].
  destruct (earliest (timers w)) as [y|]; [|lia].
  destruct (Z.leb_spec (due y) t) as [L|L]; [|lia].
  specialize (IH (fire y w)). rewrite now_fire in IH. lia.
Qed.

Lemma listeners_add_ext (t : EventTarget) (e : EventType) (u u' : State) :
  listeners u = listeners u' ->
  listeners (addEventListener t e u) = listeners (addEventListener t e u').
Proof.
  intros H. unfold addEventListener. rewrite H.
  destruct (has_listener (listeners u') t e); simpl; congruence.
Qed.

Lemma hover_ready_ext (w w' : State) :
  same_setting w w' -> hover_ready w -> hover_ready w'.
Proof.
  intros (_ & _ & So & St & Sm & _ & Sl) (Hr & Hh & Hc).
  unfold hover_ready, registered in *.
  rewrite So, St, Sm. split; [|now split].
  rewrite Sl, Hr. unfold registerToggleHandlers.
  change (openBy (set_listeners [] w')) with (openBy w').
  change (openBy (set_listeners [] w)) with (openBy w).
  change (trigger (set_listeners [] w')) with (trigger w').
  change (trigger (set_listeners [] w)) with (trigger w).
  change (menu (set_listeners [] w')) with (menu w').
  change (menu (set_listeners [] w)) with (menu w).
  rewrite So, St, Sm.
  destruct (is_hover (openBy w)); repeat apply listeners_add_ext; reflexivity.
Qed.

(** A pointer-enter on the trigger in hover mode adds one wrapper, due a
    delay from now, and touches nothing else on the side of opening. *)
Lemma enter_effect (w : State) :
  hover_ready w -> 0 <= timeout w ->
  let w' := dispatch {| ev_type := mouseover; ev_target := trigger w |} w in
  hov w' = hov w ++ [now w + timeout w] /\ inn w' = inn w /\
  firings Job_open w' = firings Job_open w /\
  onOpen_times w' = onOpen_times w /\
  isOpened w' = isOpened w /\ now w' = now w /\
  (wf w -> wf w').
Proof.
  intros Hr Hd. cbv zeta. rewrite (dispatch_enter w Hr).
  unfold hov, inn, pending, debounced_fresh. simpl.
  rewrite !filter_app, map_app. simpl. rewrite app_nil_r.
  split; [f_equal; f_equal; f_equal; lia|].
  do 5 (split; [reflexivity|]).
  apply wf_debounced_fresh.
Qed.

(** Each pointer-enter within the delay of the one before joins the burst;
    no [_open] runs meanwhile. *)
Lemma burst_enter_relay (ts : list Z) (t : Z) (w : State) (h : Z) (hs : list Z) (tr : Path) :
  wf w -> hover_ready w -> trigger w = tr ->
  relay w h hs -> last hs h = t + timeout w -> now w = t ->
  0 <= timeout w -> rapid (timeout w) t ts ->
  let w' := run (burst (Fire_event {| ev_type := mouseover; ev_target := tr |}) ts) w in
  wf w' /\
  (exists h' hs', relay w' h' hs' /\ last hs' h' = last ts t + timeout w) /\
  firings Job_open w' = firings Job_open w /\
  onOpen_times w' = onOpen_times w /\
  (isOpened w = false -> isOpened w' = false).
Proof.
  revert t w h hs.
  induction ts as [|u r IH]; intros t w h hs Hw Hrd Etr Hr Hl Hn Hd Hrap.
  - simpl. split; [exact Hw|]. split; [now exists h, hs|]. repeat split. tauto.
  - destruct Hrap as [Hu Hrap]. rewrite run_burst_cons. simpl perform.
    destruct (run_timers_relay (backlog (timers w)) u w h hs Hw Hr Hd)
      as ((h' & hs' & Hr' & Hl') & Q2 & Q3 & Q4 & Q5); [lia|].
    pose proof (now_run_timers (backlog (timers w)) u w) as Hnr.
    pose proof (same_setting_advance u w) as Sa.
    pose proof Sa as (_ & _ & _ & Sat & _ & Sad & _).
    pose proof (wf_advance u w Hw) as Hw0.
    assert (Hn0 : now (advance u w) = u) by (unfold advance; simpl; lia).
    assert (Hr0 : relay (advance u w) h' hs').
    { destruct Hr' as (A1 & A2 & A3 & A4).
      pose proof (same_setting_run_timers (backlog (timers w)) u w)
        as (_ & _ & _ & _ & _ & Srt & _).
      unfold relay. rewrite Hn0, Sad. rewrite Srt in A2.
      split; [exact A1|]. split; [exact A2|]. split; [lia | exact A4]. }
    pose proof (hover_ready_ext _ _ Sa Hrd) as Hrd0.
    assert (Etr0 : trigger (advance u w) = tr) by congruence.
    assert (Hd0 : 0 <= timeout (advance u w)) by now rewrite Sad.
    pose proof (enter_effect (advance u w) Hrd0 Hd0) as EE.
    cbv zeta in EE. rewrite Etr0 in EE.
    destruct EE as (E1 & E2 & E3 & E4 & E5 & E6 & E7).
    set (w1 := dispatch {| ev_type := mouseover; ev_target := tr |}
                 (advance u w)) in *.
    assert (Sd : same_setting (advance u w) w1)
      by (unfold w1, dispatch; apply same_setting_deliver).
    pose proof Sd as (_ & _ & _ & Sdt & _ & Sdd & _).
    assert (Hr1 : relay w1 h' (hs' ++ [u + timeout w])).
    { destruct Hr0 as (A1 & A2 & A3 & A4).
      unfold relay. rewrite E1, E2, E6, Sdd, A1, Hn0, Sad, last_snoc.
      split; [reflexivity|]. split; [|split; [lia | exact A4]].
      apply rapid_snoc; [now rewrite Sad in A2 | lia]. }
    specialize (IH u w1 h' (hs' ++ [u + timeout w])).
    rewrite Sdd, Sad in IH. cbv zeta in IH.
    destruct IH as (R1 & R2 & R3 & R4 & R5).
    + now apply E7.
    + now apply (hover_ready_ext (advance u w)).
    + congruence.
    + exact Hr1.
    + apply last_snoc.
    + now rewrite E6.
    + exact Hd.
    + exact Hrap.
    + cbv zeta. rewrite last_cons_cons.
      split; [exact R1|]. split; [exact R2|].
      assert (F0 : firings Job_open (advance u w) = firings Job_open w)
        by (unfold advance; exact Q2).
      assert (O0 : onOpen_times (advance u w) = onOpen_times w)
        by (unfold advance; exact Q3).
      split; [congruence|]. split; [congruence|].
      intros Ho. apply R5. rewrite E5. unfold advance. simpl. now apply Q4.
Qed.

(** One pointer-enter on the trigger of the sample widget in hover mode,
    with a delay of 400: when the delay has passed the wrapper has fired and
    called the debounced open(), and _open has not run. *)
Lemma hover_open_not_after_one_window :
  ~ opens_one_window_after (sample true false false 400) 0 [].
Proof.
  unfold opens_one_window_after. intros H. vm_compute in H. discriminate H.
Qed.

(** C8: what the code does where the open transition should fire one delay
    after the last pointer-enter.  In hover mode, for every burst of
    pointer-enters on the trigger, each less than the delay after the one
    before and the first at a time when nothing that leads to _open is
    pending, _open runs exactly once, two delays after the last
    pointer-enter, and not before: the wrapper that [handleEvent] creates
    around the already debounced open() waits one delay and calls open(),
    which waits one more, while a pointer-leave calls the debounced close()
    directly and waits one delay.  On a widget that is closed when the burst
    starts that run calls onOpen once, at that time. *)
Theorem hover_open_after_two_windows (w : State) (t : Z) (ts : list Z) (T : Z) :
  wf w ->
  hover_ready w ->
  pending is_open_job w = [] ->
  now w <= t ->
  0 <= timeout w ->
  rapid (timeout w) t ts ->
  last ts t + 2 * timeout w <= T ->
  let w' := advance T (run (burst (enter_trigger w) (t :: ts)) w) in
  firings Job_open w' = (last ts t + 2 * timeout w) :: firings Job_open w /\
  (isOpened w = false ->
   onOpen_times w' = (last ts t + 2 * timeout w) :: onOpen_times w) /\
  (forall T', T' < last ts t + 2 * timeout w ->
   firings Job_open (advance T' (run (burst (enter_trigger w) (t :: ts)) w)) =
   firings Job_open w).
Proof.
  intros Hw Hrd Hp Hn Hd Hrap HT.
  unfold enter_trigger. rewrite run_burst_cons. simpl perform.
  destruct (advance_quiet t w Hw) as [Q Qn]; [rewrite Hp; constructor|].
  pose proof (wf_advance t w Hw) as Hw0.
  pose proof (same_setting_advance t w) as Sa.
  pose proof Sa as (_ & _ & _ & Sat & _ & Sad & _).
  pose proof (hover_ready_ext _ _ Sa Hrd) as Hrd0.
  destruct (same_open_side_hov _ _ Q) as [Qh Qi].
  assert (Hh0 : hov (advance t w) = []).
  { rewrite Qh. unfold hov. now rewrite hover_among_open, Hp. }
  assert (Hi0 : inn (advance t w) = []).
  { rewrite Qi. unfold inn. now rewrite inner_among_open, Hp. }
  assert (Hn0 : now (advance t w) = t) by lia.
  assert (Hd0 : 0 <= timeout (advance t w)) by now rewrite Sad.
  pose proof (enter_effect (advance t w) Hrd0 Hd0) as EE.
  cbv zeta in EE. rewrite Sat in EE.
  destruct EE as (E1 & E2 & E3 & E4 & E5 & E6 & E7).
  set (w1 := dispatch {| ev_type := mouseover; ev_target := trigger w |}
               (advance t w)) in *.
  assert (Sd : same_setting (advance t w) w1)
    by (unfold w1, dispatch; apply same_setting_deliver).
  pose proof Sd as (_ & _ & _ & Sdt & _ & Sdd & _).
  assert (Ed : timeout w1 = timeout w) by congruence.
  assert (Hr1 : relay w1 (t + timeout w) []).
  { unfold relay. rewrite E1, E2, E6, Hh0, Hi0, Hn0, Sad. simpl.
    split; [reflexivity|]. split; [exact I|]. split; [lia | constructor]. }
  pose proof (burst_enter_relay ts t w1 (t + timeout w) [] (trigger w)) as B.
  rewrite Ed in B. cbv zeta in B.
  destruct B as (R1 & (h' & hs' & R2 & Rl) & R3 & R4 & R5); try assumption.
  - now apply E7.
  - now apply (hover_ready_ext (advance t w)).
  - congruence.
  - reflexivity.
  - congruence.
  - set (w2 := run _ w1) in *.
    pose proof (same_setting_run
                  (burst (Fire_event {| ev_type := mouseover;
                                        ev_target := trigger w |}) ts) w1)
      as (_ & _ & _ & _ & _ & Srd & _).
    fold w2 in Srd.
    destruct (run_timers_relay_drain (backlog (timers w2)) T w2 h' hs')
      as (D1 & D2); try assumption.
    + rewrite Srd, Ed. exact Hd.
    + rewrite Srd, Ed, Rl. lia.
    + apply le_n.
    + rewrite Srd, Ed, Rl in D1, D2.
      replace (last ts t + timeout w + timeout w)
        with (last ts t + 2 * timeout w) in D1, D2 by lia.
      destruct Q as (_ & _ & Q3 & Q4 & Q5).
      cbv zeta. split; [|split].
      * change (firings Job_open (run_timers (backlog (timers w2)) T w2) =
                (last ts t + 2 * timeout w) :: firings Job_open w).
        rewrite D1. congruence.
      * intros Ho.
        change (onOpen_times (run_timers (backlog (timers w2)) T w2) =
                (last ts t + 2 * timeout w) :: onOpen_times w).
        rewrite D2; [congruence|].
        apply R5. rewrite E5. now apply Q5.
      * intros T' HT'.
        destruct (run_timers_relay_early (backlog (timers w2)) T' w2 h' hs')
          as (Y1 & _); try assumption.
        { rewrite Srd, Ed. exact Hd. }
        { rewrite Srd, Ed, Rl. lia. }
        change (firings Job_open (run_timers (backlog (timers w2)) T' w2) =
                firings Job_open w).
        rewrite Y1. congruence.
Qed.

Lemma hover_open_after_two_windows_witness :
  firings Job_open
    (advance 2000
       (run (burst (enter_trigger (sample true false false 400)) [0; 300; 500])
          (sample true false false 400))) = [1300] /\
  onOpen_times
    (advance 2000
       (run (burst (enter_trigger (sample true false false 400)) [0; 300; 500])
          (sample true false false 400))) = [1300].
Proof.
  assert (Hrd : hover_ready (sample true false false 400))
    by (repeat split).
  assert (Hr : rapid (timeout (sample true false false 400)) 0 [300; 500])
    by (simpl; repeat split; lia).
  assert (Hn : now (sample true false false 400) <= 0) by (simpl; lia).
  assert (Hd : 0 <= timeout (sample true false false 400)) by (simpl; lia).
  assert (HT : last [300; 500] 0 + 2 * timeout (sample true false false 400)
               <= 2000) by (simpl; lia).
  destruct (hover_open_after_two_windows (sample true false false 400) 0
              [300; 500] 2000 (wf_sample true false false 400) Hrd eq_refl
              Hn Hd Hr HT) as (H1 & H2 & _).
  split; [exact H1 | exact (H2 eq_refl)].
Defined.

(** * More of the widget *)

(** ** The flag and the marker *)

Lemma synced_ext (w w' : State) :
  isOpened w' = isOpened w -> classList w' = classList w ->
  synced w -> synced w'.
Proof. unfold synced, expanded. intros -> ->. tauto. Qed.

Lemma synced__open (w : State) : synced w -> synced (_open w).
Proof.
  unfold _open. destruct (isOpened w); [tauto|]. intros _.
  unfold synced, expanded. simpl. now rewrite token_contains_add.
Qed.

Lemma synced__close (w : State) : synced w -> synced (_close w).
Proof.
  unfold _close.
  destruct ((isBrowsing w && isOpened w) || negb (isOpened w)); [tauto|].
  intros _. unfold synced, expanded. simpl. now rewrite token_contains_remove.
Qed.

Lemma synced_debounced (s : Slot) (j : Job) (time : Z) (w : State) :
  synced w -> synced (debounced s j time w).
Proof.
  apply synced_ext; unfold debounced; destruct s, (slot_get _ w); reflexivity.
Qed.

Lemma synced_fire (x : Timer) (w : State) : synced w -> synced (fire x w).
Proof.
  intros H. unfold fire. destruct (job x); simpl run_job.
  - apply synced__open. revert H. now apply synced_ext.
  - apply synced__close. revert H. now apply synced_ext.
  - apply synced_debounced. revert H. now apply synced_ext.
Qed.

Lemma synced_run_timers (fuel : nat) (t : Z) (w : State) :
  synced w -> synced (run_timers fuel t w).
Proof.
  revert w. induction fuel as [|f IH]; intros w H; simpl; [exact H|].
  destruct (earliest (timers w)) as [x|]; [|exact H].
  destruct (due x <=? t); [|exact H]. now apply IH, synced_fire.
Qed.

Lemma synced_advance (t : Z) (w : State) : synced w -> synced (advance t w).
Proof.
  intros H. unfold advance.
  apply (synced_ext (run_timers (backlog (timers w)) t w)); try reflexivity.
  now apply synced_run_timers.
Qed.

Lemma synced_toggle (w : State) : synced w -> synced (toggle w).
Proof.
  unfold toggle. destruct (isOpened w); [apply synced__close | apply synced__open].
Qed.

Lemma synced_select (e : Path) (w : State) : synced w -> synced (select e w).
Proof.
  unfold select.
  destruct (truthy_attr (getAttribute (doc w) e "disabled")); [tauto|].
  now apply synced_ext.
Qed.

Lemma synced_handleEvent (ev : Event) (w : State) :
  synced w -> synced (fst (handleEvent ev w)).
Proof.
  intros H. unfold handleEvent.
  destruct (ev_type ev), (path_eqb (ev_target ev) (trigger w)),
    (contains (menu w) (ev_target ev) || path_eqb (ev_target ev) (menu w));
    cbv zeta; simpl fst;
    try exact H; try (now apply synced_toggle); try (now apply synced_select);
    try (now apply synced__close);
    repeat (first [apply synced_debounced
                  | apply (synced_ext w); [reflexivity | reflexivity | exact H]
                  | (eapply synced_ext; [| |eassumption]; reflexivity)]).
Qed.

Lemma synced_deliver (path : list EventTarget) (ev : Event) (w : State) :
  synced w -> synced (deliver path ev w).
Proof.
  revert w. induction path as [|t r IH]; intros w H; simpl; [exact H|].
  destruct (has_listener (listeners w) t (ev_type ev)); [|now apply IH].
  pose proof (synced_handleEvent ev w H) as K.
  destruct (handleEvent ev w) as [w' stopped]. simpl in K.
  destruct stopped; [exact K | now apply IH].
Qed.

Lemma synced_perform (a : Action) (w : State) : synced w -> synced (perform a w).
Proof.
  intros H. destruct a; simpl.
  - now apply synced_debounced.
  - now apply synced_debounced.
  - now apply synced_toggle.
  - now apply synced_select.
  - now apply synced_deliver.
Qed.

Lemma synced_run (script : list (Z * Action)) (w : State) :
  synced w -> synced (run script w).
Proof.
  revert w. induction script as [|[t a] r IH]; intros w H; simpl; [exact H|].
  now apply IH, synced_perform, synced_advance.
Qed.

(** X1: from construction on, whatever is called, whatever events arrive and
    whatever time passes, the widget is opened exactly when its root element
    carries the expanded class. *)
Theorem marker_tracks_isOpened (d : Node) (t0 : Z) (o : Options) (w : State)
    (script : list (Z * Action)) :
  Dropdown d t0 o = Some w ->
  isOpened (run script w) = expanded (run script w).
Proof.
  intros H. apply synced_run. apply Dropdown_fields in H.
  destruct H as (element & tr & mn & _ & _ & _ & _ & _ & _ & _ & _ & _ & Ho & _
                 & Hc & _).
  unfold synced, expanded. now rewrite Ho, Hc.
Qed.

Lemma marker_tracks_isOpened_witness :
  isOpened (run [(0, Fire_event (click_trigger (sample false false false 400)));
                 (10, Call_open);
                 (500, Fire_event {| ev_type := click; ev_target := sample_outside |})]
              (sample false false false 400)) =
  expanded (run [(0, Fire_event (click_trigger (sample false false false 400)));
                 (10, Call_open);
                 (500, Fire_event {| ev_type := click; ev_target := sample_outside |})]
              (sample false false false 400)).
Proof.
  apply (marker_tracks_isOpened (page [] []) 0 (sample_options None (Some 400))).
  reflexivity.
Defined.

(** ** One timer for each debounced method *)

Lemma NoDup_constant {A : Type} (i : A) (l : list A) :
  NoDup l -> (forall a, In a l -> a = i) -> (List.length l <= 1)%nat.
Proof.
  intros Hd Hc. destruct l as [|a [|b r]]; simpl; try lia.
  exfalso. inversion Hd as [|? ? Hn _]; subst. apply Hn.
  rewrite (Hc a), (Hc b); simpl; tauto.
Qed.

Lemma wf_single (s : Slot) (f : Job -> bool) (w : State) :
  wf w -> (forall j, f j = true -> j = slot_job s) ->
  (List.length (pending f w) <= 1)%nat.
Proof.
  intros Hw Hf.
  assert (Hn : NoDup (map tid (pending f w)))
    by (apply NoDup_map_filter, (wf_nodup w Hw)).
  destruct (slot_get s w) as [i|] eqn:Es.
  - rewrite <- (length_map tid). apply (NoDup_constant i); [exact Hn|].
    intros a Ha. apply in_map_iff in Ha. destruct Ha as (x & <- & Hx).
    apply filter_In in Hx. destruct Hx as [Hx Hj]. apply Hf in Hj.
    apply (wf_slot w Hw s x Hx) in Hj. congruence.
  - destruct (pending f w) as [|x r] eqn:P; simpl; [lia|]. exfalso.
    assert (Hx : In x (pending f w)) by (rewrite P; now left).
    apply filter_In in Hx. destruct Hx as [Hx Hj]. apply Hf in Hj.
    apply (wf_slot w Hw s x Hx) in Hj. congruence.
Qed.

(** X2: from construction on, at no moment is more than one timer of the
    debounced open() pending, nor more than one of the debounced close():
    each call of a debounced method clears the timer of the call before. *)
Theorem one_timer_per_method (d : Node) (t0 : Z) (o : Options) (w : State)
    (script : list (Z * Action)) :
  Dropdown d t0 o = Some w ->
  (List.length (pending is_Job_open (run script w)) <= 1)%nat /\
  (List.length (pending is_close_job (run script w)) <= 1)%nat.
Proof.
  intros H. pose proof (wf_run script w (wf_Dropdown d t0 o w H)) as Hw.
  split.
  - apply (wf_single Slot_open); [exact Hw|]. now intros [].
  - apply (wf_single Slot_close); [exact Hw|]. now intros [].
Qed.

Lemma one_timer_per_method_witness :
  Nat.le (List.length (pending is_Job_open
     (run [(0, Call_open); (10, Call_close); (20, Call_open); (30, Call_close)]
        (sample true false false 400)))) 1 /\
  Nat.le (List.length (pending is_close_job
     (run [(0, Call_open); (10, Call_close); (20, Call_open); (30, Call_close)]
        (sample true false false 400)))) 1.
Proof.
  apply (one_timer_per_method (page [] []) 0 (sample_options (Some "hover") (Some 400))).
  reflexivity.
Defined.

(** ** Who hears an event *)

Lemma EventTarget_eqb_eq (a b : EventTarget) :
  EventTarget_eqb a b = true <-> a = b.
Proof.
  destruct a as [|p], b as [|q]; simpl; try (split; [discriminate|discriminate]).
  - tauto.
  - rewrite path_eqb_eq. split; [now intros -> | now intros [= ->]].
Qed.

Lemma EventType_eqb_eq (a b : EventType) : EventType_eqb a b = true <-> a = b.
Proof. destruct a, b; simpl; split; congruence. Qed.

(** When [handleEvent] stops the propagation, the event is handled once,
    however many listeners were on its way. *)
Lemma deliver_stops (path : list EventTarget) (ev : Event) (w w1 : State) :
  handleEvent ev w = (w1, true) ->
  (exists t, In t path /\ has_listener (listeners w) t (ev_type ev) = true) ->
  deliver path ev w = w1.
Proof.
  intros Hh (t & Ht & Hl). induction path as [|q r IH]; [destruct Ht|].
  simpl. destruct (has_listener (listeners w) q (ev_type ev)) eqn:E.
  - now rewrite Hh.
  - destruct Ht as [->|Ht]; [congruence | now apply IH].
Qed.

(** When [handleEvent] does nothing for an event, it does not matter who
    hears it. *)
Lemma deliver_noop (path : list EventTarget) (ev : Event) (w : State) :
  handleEvent ev w = (w, false) -> deliver path ev w = w.
Proof.
  intros Hh. induction path as [|q r IH]; simpl; [reflexivity|].
  destruct (has_listener (listeners w) q (ev_type ev)); [|exact IH].
  now rewrite Hh.
Qed.

Lemma contains_ancestor (m e : Path) :
  contains m e = true <-> In m (ancestors_or_self e).
Proof.
  revert m. induction e as [|i q IH]; intros m.
  - destruct m; simpl; split; try tauto; try discriminate.
    intros [H|[]]. discriminate.
  - destruct m as [|j m']; simpl.
    + split; [|reflexivity]. intros _. apply in_or_app. right. now left.
    + rewrite andb_true_iff, Nat.eqb_eq, IH, in_app_iff, in_map_iff. split.
      * intros [-> H]. left. now exists m'.
      * intros [(x & [= <- <-] & Hx)|[H|[]]]; [tauto | discriminate].
Qed.

Lemma dispatch_click_trigger (w : State) :
  has_listener (listeners w) Window click = true ->
  dispatch (click_trigger w) w = toggle w.
Proof.
  intros Hl. unfold dispatch, click_trigger. apply deliver_stops.
  - unfold handleEvent. simpl. now rewrite path_eqb_refl.
  - exists Window. split; [|exact Hl].
    unfold propagation_path. apply in_or_app. right. now left.
Qed.

(** X5: in either mode, as long as the widget listens on the window, a click
    whose target is the trigger runs toggle() once: the first listener that
    hears it stops the propagation, so no second listener toggles it back
    or closes it. *)
Theorem click_trigger_toggles (w : State) :
  has_listener (listeners w) Window click = true ->
  dispatch (click_trigger w) w = toggle w /\
  isOpened (dispatch (click_trigger w) w) =
    (if isOpened w then isBrowsing w else true) /\
  timers (dispatch (click_trigger w) w) = timers w.
Proof.
  intros Hl. rewrite (dispatch_click_trigger w Hl). split; [reflexivity|].
  unfold toggle, _close, _open.
  destruct (isOpened w) eqn:Ho, (isBrowsing w) eqn:Hb; simpl;
    rewrite ?Ho, ?Hb; split; reflexivity.
Qed.

Lemma click_trigger_toggles_witness :
  dispatch (click_trigger (sample false false false 400))
    (sample false false false 400) = toggle (sample false false false 400) /\
  dispatch (click_trigger (sample true false false 400))
    (sample true false false 400) = toggle (sample true false false 400).
Proof.
  split.
  - apply (click_trigger_toggles (sample false false false 400)). reflexivity.
  - apply (click_trigger_toggles (sample true false false 400)). reflexivity.
Defined.

(** X6: a click on the menu or inside it, other than on the trigger, on a
    widget that listens on its menu, runs select() on the target once and
    nothing else: the propagation is stopped before the window hears the
    click, so the menu is not closed, no timer is set and only onSelect can
    be called. *)
Theorem click_item_selects (w : State) (e : Path) :
  has_listener (listeners w) (Elem (menu w)) click = true ->
  contains (menu w) e = true ->
  path_eqb e (trigger w) = false ->
  let w' := dispatch {| ev_type := click; ev_target := e |} w in
  w' = select e w /\
  isOpened w' = isOpened w /\ classList w' = classList w /\
  timers w' = timers w /\
  onClose_times w' = onClose_times w /\ onOpen_times w' = onOpen_times w.
Proof.
  intros Hl Hc Ht. cbv zeta.
  assert (E : dispatch {| ev_type := click; ev_target := e |} w = select e w).
  { unfold dispatch. apply deliver_stops.
    - unfold handleEvent. simpl. now rewrite Ht, isMenu_contains, Hc.
    - exists (Elem (menu w)). split; [|exact Hl].
      unfold propagation_path. simpl. apply in_or_app. left.
      apply in_map. now apply contains_ancestor. }
  rewrite E. split; [reflexivity|]. unfold select.
  destruct (truthy_attr (getAttribute (doc w) e "disabled"));
    repeat split.
Qed.

Lemma click_item_selects_witness :
  dispatch {| ev_type := click; ev_target := sample_item 0 |}
    (sample false true false 400) =
  select (sample_item 0) (sample false true false 400) /\
  isOpened (dispatch {| ev_type := click; ev_target := sample_item 0 |}
              (sample false true false 400)) = true.
Proof.
  destruct (click_item_selects (sample false true false 400) (sample_item 0))
    as (H1 & H2 & _); try reflexivity.
  split; [exact H1 | exact H2].
Defined.

(** X8: in either mode, a pointer-enter or pointer-leave whose target is
    neither the trigger element itself nor the menu nor inside the menu
    changes nothing, whoever hears it: this holds for the elements inside
    the trigger too. *)
Theorem pointer_elsewhere_ignored (w : State) (ty : EventType) (e : Path) :
  ty <> click ->
  path_eqb e (trigger w) = false ->
  contains (menu w) e = false ->
  dispatch {| ev_type := ty; ev_target := e |} w = w.
Proof.
  intros Hty Ht Hm. unfold dispatch. apply deliver_noop.
  unfold handleEvent. simpl. rewrite Ht, isMenu_contains, Hm.
  destruct ty; [reflexivity | reflexivity | contradiction].
Qed.

Lemma pointer_elsewhere_ignored_witness :
  dispatch {| ev_type := mouseover; ev_target := sample_label |}
    (sample true false false 400) = sample true false false 400.
Proof.
  apply (pointer_elsewhere_ignored (sample true false false 400) mouseover
           sample_label); [discriminate | reflexivity | reflexivity].
Defined.

(** X12: on a widget that is not being browsed and listens on the window,
    two clicks on the trigger bring isOpened and the expanded marker back to
    where isOpened was, with one call of onOpen and one of onClose, both at
    once, and no timer set. *)
Theorem two_clicks_restore (w : State) :
  has_listener (listeners w) Window click = true ->
  isBrowsing w = false ->
  let w2 := dispatch (click_trigger w) (dispatch (click_trigger w) w) in
  isOpened w2 = isOpened w /\ expanded w2 = isOpened w /\
  onOpen_times w2 = now w :: onOpen_times w /\
  onClose_times w2 = now w :: onClose_times w /\
  timers w2 = timers w.
Proof.
  intros Hl Hb. cbv zeta. rewrite (dispatch_click_trigger w Hl).
  pose proof (same_setting_toggle w) as (_ & _ & _ & St & _ & _ & Sl).
  assert (E : dispatch (click_trigger w) (toggle w) = toggle (toggle w)).
  { unfold click_trigger. rewrite <- St. apply dispatch_click_trigger.
    now rewrite Sl. }
  rewrite E.
  unfold toggle, _close, _open, invoke, expanded, onOpen_times, onClose_times.
  destruct (isOpened w) eqn:Ho; simpl; rewrite ?Ho, ?Hb; simpl;
    rewrite ?Hb, ?token_contains_add, ?token_contains_remove;
    repeat split; reflexivity.
Qed.

Lemma two_clicks_restore_witness :
  isOpened (dispatch (click_trigger (sample false true false 400))
              (dispatch (click_trigger (sample false true false 400))
                 (sample false true false 400))) = true /\
  onClose_times (dispatch (click_trigger (sample false true false 400))
                   (dispatch (click_trigger (sample false true false 400))
                      (sample false true false 400))) = [0].
Proof.
  destruct (two_clicks_restore (sample false true false 400))
    as (H1 & _ & _ & H4 & _); try reflexivity.
  split; [exact H1 | exact H4].
Defined.

(** X7: a widget built in any mode other than hover, and not destroyed,
    hears no pointer-enter and no pointer-leave: wherever the pointer goes,
    nothing changes. *)
Theorem click_mode_ignores_pointer (w : State) (ty : EventType) (e : Path) :
  registered w -> is_hover (openBy w) = false -> ty <> click ->
  dispatch {| ev_type := ty; ev_target := e |} w = w.
Proof.
  intros Hr Hh Hty. unfold dispatch. apply deliver_unheard. simpl ev_type.
  intros t _. rewrite Hr. unfold registerToggleHandlers.
  change (openBy (set_listeners [] w)) with (openBy w). rewrite Hh.
  rewrite !has_listener_add. simpl.
  destruct ty; [| |contradiction]; simpl; now rewrite !andb_false_r.
Qed.

Lemma click_mode_ignores_pointer_witness :
  dispatch {| ev_type := mouseover; ev_target := sample_trigger |}
    (sample false false false 400) = sample false false false 400.
Proof.
  apply (click_mode_ignores_pointer (sample false false false 400) mouseover
           sample_trigger); [reflexivity | reflexivity | discriminate].
Defined.

(** ** Destroying the widget *)

Lemma in_listeners_add (x : EventTarget * EventType) (t : EventTarget)
    (e : EventType) (u : State) :
  In x (listeners (addEventListener t e u)) -> In x (listeners u) \/ x = (t, e).
Proof.
  unfold addEventListener. destruct (has_listener (listeners u) t e); [tauto|].
  simpl. intros H. apply in_app_or in H. destruct H as [H|[H|[]]]; auto.
Qed.

Lemma in_listeners_remove (x : EventTarget * EventType) (t : EventTarget)
    (e : EventType) (u : State) :
  In x (listeners (removeEventListener t e u)) ->
  In x (listeners u) /\ x <> (t, e).
Proof.
  unfold removeEventListener. simpl. intros H. apply filter_In in H.
  destruct H as [H Hn]. split; [exact H|]. intros ->. simpl in Hn.
  assert (E1 : EventTarget_eqb t t = true) by now apply EventTarget_eqb_eq.
  assert (E2 : EventType_eqb e e = true) by now apply EventType_eqb_eq.
  rewrite E1, E2 in Hn. discriminate.
Qed.

Lemma destroy_frame (w : State) :
  destroy w = set_listeners (listeners (destroy w)) w.
Proof. unfold destroy. destruct (is_hover (openBy w)); reflexivity. Qed.

Lemma destroy_subset (x : EventTarget * EventType) (w : State) :
  In x (listeners (destroy w)) -> In x (listeners w).
Proof.
  unfold destroy. destruct (is_hover (openBy w)); intros H;
    repeat (apply in_listeners_remove in H; destruct H as [H _]); exact H.
Qed.

(** [destroy] removes every listener that [registerToggleHandlers] adds. *)
Lemma destroy_registered (w : State) :
  registered w -> listeners (destroy w) = [].
Proof.
  intros Hr. destruct (listeners (destroy w)) as [|x r] eqn:L; [reflexivity|].
  exfalso. assert (Hx : In x (listeners (destroy w))) by (rewrite L; now left).
  clear L. pose proof (destroy_subset x w Hx) as Hin.
  rewrite Hr in Hin. unfold registerToggleHandlers in Hin.
  change (openBy (set_listeners [] w)) with (openBy w) in Hin.
  change (trigger (set_listeners [] w)) with (trigger w) in Hin.
  change (menu (set_listeners [] w)) with (menu w) in Hin.
  unfold destroy in Hx.
  destruct (is_hover (openBy w)).
  - do 6 (apply in_listeners_remove in Hx; destruct Hx as [Hx ?]).
    do 6 (apply in_listeners_add in Hin; destruct Hin as [Hin|Hin];
          [|contradiction]).
    destruct Hin.
  - do 3 (apply in_listeners_remove in Hx; destruct Hx as [Hx ?]).
    do 3 (apply in_listeners_add in Hin; destruct Hin as [Hin|Hin];
          [|contradiction]).
    destruct Hin.
Qed.

(** X3: after destroy() on a widget as the constructor built it, in either
    mode, the widget listens to nothing: every event leaves the state as it
    is, and a second destroy() changes nothing. *)
Theorem destroy_unbinds (d : Node) (t0 : Z) (o : Options) (w : State) :
  Dropdown d t0 o = Some w ->
  listeners (destroy w) = [] /\
  (forall ev, dispatch ev (destroy w) = destroy w) /\
  destroy (destroy w) = destroy w.
Proof.
  intros H. apply Dropdown_fields in H.
  assert (Hr : registered w) by (destruct H as (? & ? & ? & H); apply H).
  pose proof (destroy_registered w Hr) as E.
  split; [exact E|]. split.
  - intros ev. unfold dispatch. apply deliver_unheard. intros t _.
    now rewrite E.
  - rewrite (destroy_frame (destroy w)).
    assert (E2 : listeners (destroy (destroy w)) = []).
    { destruct (listeners (destroy (destroy w))) as [|x r] eqn:L; [reflexivity|].
      exfalso. assert (Hx : In x (listeners (destroy (destroy w))))
        by (rewrite L; now left).
      apply destroy_subset in Hx. rewrite E in Hx. destruct Hx. }
    rewrite E2, (destroy_frame w), E. reflexivity.
Qed.

Lemma destroy_unbinds_witness :
  listeners (destroy (sample true false false 400)) = [] /\
  dispatch (click_trigger (sample true false false 400))
    (destroy (sample true false false 400)) = destroy (sample true false false 400).
Proof.
  destruct (destroy_unbinds (page [] []) 0 (sample_options (Some "hover") (Some 400))
              (sample true false false 400) eq_refl) as (H1 & H2 & _).
  split; [exact H1 | apply H2].
Defined.

(** X4: destroy() removes listeners and nothing else: a timer of the
    debounced open() that is pending when the widget is destroyed still
    fires when it is due, and _open opens the destroyed widget and calls
    onOpen. *)
Theorem destroy_keeps_timers (w : State) (D T : Z) :
  wf w -> armed w D -> now w <= D -> D <= T ->
  timers (destroy w) = timers w /\
  firings Job_open (advance T (destroy w)) = D :: firings Job_open w /\
  (isOpened w = false ->
   onOpen_times (advance T (destroy w)) = D :: onOpen_times w).
Proof.
  intros Hw Ha Hn HT.
  assert (Et : timers (destroy w) = timers w)
    by (rewrite destroy_frame; reflexivity).
  assert (Hw' : wf (destroy w))
    by (apply (wf_ext w); try (rewrite destroy_frame; reflexivity); exact Hw).
  assert (Ha' : armed (destroy w) D).
  { destruct Ha as (x & Hp & Hx). exists x. unfold pending in *.
    now rewrite Et. }
  assert (Ef : firings Job_open (destroy w) = firings Job_open w)
    by (rewrite destroy_frame; reflexivity).
  assert (Ec : onOpen_times (destroy w) = onOpen_times w)
    by (rewrite destroy_frame; reflexivity).
  assert (Eo : isOpened (destroy w) = isOpened w)
    by (rewrite destroy_frame; reflexivity).
  assert (En : now (destroy w) = now w)
    by (rewrite destroy_frame; reflexivity).
  destruct (advance_armed T (destroy w) D Hw' Ha') as [F1 F2]; try lia.
  rewrite Ef in F1. rewrite Ec, Eo in F2. auto.
Qed.

Lemma destroy_keeps_timers_witness :
  firings Job_open
    (advance 400 (destroy (open (sample true false false 400)))) = [400] /\
  onOpen_times
    (advance 400 (destroy (open (sample true false false 400)))) = [400].
Proof.
  assert (Ha : armed (open (sample true false false 400)) 400).
  { eexists. repeat split. }
  destruct (destroy_keeps_timers (open (sample true false false 400)) 400 400
              (wf_open _ (wf_sample true false false 400)) Ha)
    as (_ & H1 & H2); try (simpl; lia).
  split; [exact H1 | exact (H2 eq_refl)].
Defined.

(** ** Where the constructor finds the trigger and the menu *)

Lemma contains_app (a b : Path) : contains a (a ++ b) = true.
Proof.
  induction a as [|i a IH]; simpl; [reflexivity|].
  now rewrite Nat.eqb_refl.
Qed.

Lemma node_at_app (n k : Node) (p q : Path) :
  node_at n p = Some k -> node_at n (p ++ q) = node_at k q.
Proof.
  revert n. induction p as [|i p IH]; intros n H; simpl in *.
  - now injection H as ->.
  - destruct (nth_error (children_of n) i) as [c|]; [now apply IH | discriminate].
Qed.

(** What [querySelector] returns is a proper descendant with the tag asked
    for. *)
Lemma querySelector_sound (tag : string) (n : Node) (p : Path) :
  querySelector tag n = Some p ->
  p <> [] /\ exists k, node_at n p = Some k /\ tag_of k = tag.
Proof.
  revert n p. fix IH 1. intros [t c a kids] p. simpl.
  assert (HQ : Forall (fun k => forall q, querySelector tag k = Some q ->
                         q <> [] /\ exists k', node_at k q = Some k' /\ tag_of k' = tag)
                 kids).
  { induction kids as [|k r IHr]; constructor; [apply IH | exact IHr]. }
  clear IH.
  assert (aux : forall ks i q,
    Forall (fun k => forall q, querySelector tag k = Some q ->
              q <> [] /\ exists k', node_at k q = Some k' /\ tag_of k' = tag) ks ->
    (fix first_in (ks : list Node) (i : nat) {struct ks} : option Path :=
       match ks with
       | [] => None
       | k :: ks' =>
           if String.eqb (tag_of k) tag then Some [i]
           else match querySelector tag k with
                | Some p => Some (i :: p)
                | None => first_in ks' (S i)
                end
       end) ks i = Some q ->
    exists j r kj k', q = (i + j)%nat :: r /\ nth_error ks j = Some kj /\
                      node_at kj r = Some k' /\ tag_of k' = tag).
  { induction ks as [|k ks' IHk]; intros i q HF; [discriminate|].
    inversion HF as [|? ? Hk Hr]; subst.
    destruct (String.eqb_spec (tag_of k) tag) as [E|E].
    - intros [= <-]. exists 0%nat, [], k, k. rewrite Nat.add_0_r. auto.
    - destruct (querySelector tag k) as [p'|] eqn:Q.
      + intros [= <-]. destruct (Hk p' eq_refl) as (_ & k' & N & T).
        exists 0%nat, p', k, k'. rewrite Nat.add_0_r. auto.
      + intros H. destruct (IHk (S i) q Hr H) as (j & r & kj & k' & -> & N & M & T).
        exists (S j), r, kj, k'. rewrite Nat.add_succ_r. auto. }
  intros H. destruct (aux kids 0%nat p HQ H) as (j & r & kj & k' & -> & N & M & T).
  split; [discriminate|]. exists k'. simpl. rewrite N. auto.
Qed.

(** X11: when the constructor returns, the trigger is a div and the menu is
    a ul of the document, both properly inside [options.el], and they are
    two different elements. *)
Theorem constructed_geometry (d : Node) (t0 : Z) (o : Options) (w : State) :
  Dropdown d t0 o = Some w ->
  (exists k, node_at d (trigger w) = Some k /\ tag_of k = "div") /\
  (exists k, node_at d (menu w) = Some k /\ tag_of k = "ul") /\
  contains (el w) (trigger w) = true /\ trigger w <> el w /\
  contains (el w) (menu w) = true /\ menu w <> el w /\
  trigger w <> menu w.
Proof.
  intros H. apply Dropdown_fields in H.
  destruct H as (element & tr & mn & Hn & Qt & Qm & _ & He & _ & Ht & Hm & _).
  destruct (querySelector_sound _ _ _ Qt) as (Nt & kt & At & Tt).
  destruct (querySelector_sound _ _ _ Qm) as (Nm & km & Am & Tm).
  assert (Et : node_at d (trigger w) = Some kt)
    by (rewrite Ht, (node_at_app d element) by exact Hn; exact At).
  assert (Em : node_at d (menu w) = Some km)
    by (rewrite Hm, (node_at_app d element) by exact Hn; exact Am).
  assert (Hne : forall (a b : Path), b <> [] -> (a ++ b)%list <> a).
  { intros a b Hb E. apply Hb. apply (app_inv_head a).
    now rewrite app_nil_r. }
  split; [now exists kt|]. split; [now exists km|].
  rewrite Ht, Hm, He. repeat split;
    try apply contains_app; try (now apply Hne).
  intros E. rewrite Ht in Et. rewrite Hm in Em. rewrite E in Et.
  assert (kt = km) by congruence. subst. rewrite Tt in Tm. discriminate.
Qed.

Lemma constructed_geometry_witness :
  trigger (sample false false false 400) <> menu (sample false false false 400) /\
  contains (el (sample false false false 400))
    (menu (sample false false false 400)) = true.
Proof.
  destruct (constructed_geometry (page [] []) 0 (sample_options None (Some 400))
              (sample false false false 400) eq_refl)
    as (_ & _ & _ & _ & H5 & _ & H7).
  split; [exact H7 | exact H5].
Defined.

(** ** Pointer events in hover mode *)

Lemma hover_listens (w : State) (t : EventTarget) (ty : EventType) :
  hover_ready w -> ty <> click ->
  has_listener (listeners w) t ty =
  EventTarget_eqb (Elem (trigger w)) t || EventTarget_eqb (Elem (menu w)) t.
Proof.
  intros (Hr & Hh & _) Hty. rewrite Hr. unfold registerToggleHandlers.
  change (openBy (set_listeners [] w)) with (openBy w). rewrite Hh.
  rewrite !has_listener_add. simpl.
  destruct ty; [| |contradiction]; simpl;
    rewrite !andb_false_r, !andb_true_r, !orb_false_r;
    destruct (EventTarget_eqb (Elem (trigger w)) t),
             (EventTarget_eqb (Elem (menu w)) t); reflexivity.
Qed.

Lemma NoDup_ancestors (p : Path) : NoDup (ancestors_or_self p).
Proof.
  induction p as [|i q IH]; simpl.
  - constructor; [intros []|constructor].
  - apply NoDup_snoc.
    + intros H. apply in_map_iff in H. destruct H as (x & E & _). discriminate.
    + clear -IH. induction IH as [|a l Ha _ IHl]; simpl; constructor; [|exact IHl].
      intros H. apply in_map_iff in H. destruct H as (x & [= ->] & Hx). tauto.
Qed.

Lemma NoDup_propagation (p : Path) : NoDup (propagation_path p).
Proof.
  unfold propagation_path. apply NoDup_snoc.
  - intros H. apply in_map_iff in H. destruct H as (x & E & _). discriminate.
  - pose proof (NoDup_ancestors p) as H.
    induction H as [|a l Ha _ IHl]; simpl; constructor; [|exact IHl].
    intros K. apply in_map_iff in K. destruct K as (x & [= ->] & Hx). tauto.
Qed.

(** An event that one target on its way hears, and that is not stopped, is
    handled once. *)
Lemma deliver_once (path : list EventTarget) (t0 : EventTarget) (ev : Event)
    (w w' : State) :
  NoDup path -> In t0 path ->
  (forall t, In t path ->
     has_listener (listeners w) t (ev_type ev) = EventTarget_eqb t0 t) ->
  handleEvent ev w = (w', false) ->
  deliver path ev w = w'.
Proof.
  intros Hd Hin Hl Hh.
  pose proof (same_setting_handleEvent ev w) as S. rewrite Hh in S.
  destruct S as (_ & _ & _ & _ & _ & _ & Sl). simpl in Sl.
  induction path as [|q r IH]; [destruct Hin|].
  inversion Hd as [|? ? Hq Hr]; subst. simpl.
  rewrite (Hl q (or_introl eq_refl)).
  destruct (EventTarget_eqb t0 q) eqn:E.
  - rewrite Hh. apply deliver_unheard. intros t Ht. rewrite Sl.
    rewrite (Hl t (or_intror Ht)). apply EventTarget_eqb_eq in E. subst q.
    destruct (EventTarget_eqb t0 t) eqn:E'; [|reflexivity].
    apply EventTarget_eqb_eq in E'. subst t. contradiction.
  - apply IH; [exact Hr | | ].
    + destruct Hin as [->|Hin]; [|exact Hin].
      assert (K : EventTarget_eqb t0 t0 = true) by now apply EventTarget_eqb_eq.
      congruence.
    + intros t Ht. apply Hl. now right.
Qed.

Lemma in_propagation (m e : Path) :
  In (Elem m) (propagation_path e) <-> contains m e = true.
Proof.
  rewrite contains_ancestor. unfold propagation_path.
  rewrite in_app_iff, in_map_iff. split.
  - intros [(x & [= ->] & Hx)|[H|[]]]; [exact Hx | discriminate].
  - intros H. left. now exists m.
Qed.

(** In hover mode a pointer event on the menu or inside it, but not inside
    the trigger, is handled once. *)
Lemma dispatch_in_menu (w : State) (ty : EventType) (e : Path) :
  hover_ready w -> ty <> click ->
  contains (menu w) e = true -> contains (trigger w) e = false ->
  dispatch {| ev_type := ty; ev_target := e |} w =
  match ty with
  | mouseover => onBrowse w
  | mouseout => close (onEndBrowse w)
  | click => w
  end.
Proof.
  intros Hr Hty Hm Ht. unfold dispatch. simpl ev_target.
  apply (deliver_once _ (Elem (menu w))).
  - apply NoDup_propagation.
  - now apply in_propagation.
  - intros t Hin. simpl ev_type. rewrite (hover_listens w t ty Hr Hty).
    destruct (EventTarget_eqb (Elem (trigger w)) t) eqn:E; [|reflexivity].
    apply EventTarget_eqb_eq in E. subst t. apply in_propagation in Hin.
    congruence.
  - unfold handleEvent. simpl.
    assert (E : path_eqb e (trigger w) = false).
    { destruct (path_eqb e (trigger w)) eqn:E; [|reflexivity].
      apply path_eqb_eq in E. subst e. now rewrite contains_refl in Ht. }
    rewrite E, isMenu_contains, Hm.
    destruct ty; [reflexivity | reflexivity | contradiction].
Qed.

(** In hover mode a pointer-leave on the trigger calls the debounced
    [close]. *)
Lemma dispatch_leave (w : State) :
  hover_ready w ->
  dispatch {| ev_type := mouseout; ev_target := trigger w |} w = close w.
Proof.
  intros Hr. pose proof Hr as (_ & _ & Hc). unfold dispatch. simpl ev_target.
  apply (deliver_once _ (Elem (trigger w))).
  - apply NoDup_propagation.
  - apply in_propagation, contains_refl.
  - intros t Hin. simpl ev_type.
    rewrite (hover_listens w t mouseout Hr) by discriminate.
    destruct (EventTarget_eqb (Elem (menu w)) t) eqn:E; [|apply orb_false_r].
    apply EventTarget_eqb_eq in E. subst t. apply in_propagation in Hin.
    congruence.
  - unfold handleEvent. simpl. now rewrite path_eqb_refl, isMenu_contains, Hc.
Qed.

(** ** The debounced close on a widget at rest *)

Lemma run_timers_S (f : nat) (t : Z) (w : State) :
  run_timers (S f) t w =
  match earliest (timers w) with
  | Some x => if due x <=? t then run_timers f t (fire x w) else w
  | None => w
  end.
Proof. reflexivity. Qed.

Lemma advance_single (x : Timer) (T : Z) (w : State) :
  timers w = [x] -> job x = Job_close ->
  advance T w =
  if due x <=? T then set_now (Z.max (now (fire x w)) T) (fire x w)
  else set_now (Z.max (now w) T) w.
Proof.
  intros Ht Hj. unfold advance. rewrite Ht. unfold backlog, fold_right.
  rewrite Hj. unfold weight. rewrite run_timers_S, Ht. unfold earliest.
  destruct (due x <=? T); reflexivity.
Qed.

Lemma resting_advance (w : State) (o b : bool) (p : option Z) (n : Z)
    (cl : list Z) (T : Z) :
  resting w o b p n cl ->
  match p with
  | None => resting (advance T w) o b None (Z.max n T) cl
  | Some D =>
      if D <=? T
      then resting (advance T w) (o && b) b None (Z.max (Z.max n D) T)
             (if o && negb b then Z.max n D :: cl else cl)
      else resting (advance T w) o b (Some D) (Z.max n T) cl
  end.
Proof.
  intros (Hw & Ho & Hb & Hn & Hc & Hs). destruct p as [D|].
  - destruct Hs as (x & Ht & Hj & Hd).
    assert (Hx : In x (timers w)) by (rewrite Ht; now left).
    pose proof (wf_fire x w Hw Hx) as Hwf.
    rewrite (advance_single x T w Ht Hj), Hd.
    destruct (D <=? T).
    + assert (Hf : fire x w =
               _close (set_close_timer None
                 (set_fired ((Z.max n D, Job_close) :: fired w)
                    (set_now (Z.max n D) (set_timers (next_id w) [] w))))).
      { unfold fire. rewrite Hj. simpl. rewrite Ht, Hn, Hd. simpl.
        now rewrite Nat.eqb_refl. }
      rewrite now_fire, Hn, Hd.
      split; [apply (wf_ext (fire x w)); try reflexivity; exact Hwf|].
      rewrite Hf. unfold _close, onClose_times in *. simpl. rewrite Ho, Hb.
      destruct o, b; simpl; rewrite ?Ho, ?Hb, ?Hc; repeat split.
    + split; [apply (wf_ext w); try reflexivity; exact Hw|].
      simpl. rewrite Hn. repeat split; try assumption. now exists x.
  - unfold advance. rewrite Hs. simpl run_timers.
    split; [apply (wf_ext w); try reflexivity; exact Hw|].
    simpl. rewrite Hn. repeat split; assumption.
Qed.

Lemma close_fields (w : State) :
  isOpened (close w) = isOpened w /\ isBrowsing (close w) = isBrowsing w /\
  now (close w) = now w /\ calls (close w) = calls w /\
  timers (close w) =
    timers (clearTimeout (close_timer w) w) ++
    [{| tid := next_id w; due := now w + Z.max 0 (timeout w); job := Job_close |}].
Proof.
  unfold close, debounced. simpl. destruct (close_timer w); repeat split.
Qed.

Lemma resting_close (w : State) (o b : bool) (p : option Z) (n : Z) (cl : list Z) :
  resting w o b p n cl -> 0 <= timeout w ->
  resting (close w) o b (Some (n + timeout w)) n cl.
Proof.
  intros (Hw & Ho & Hb & Hn & Hc & Hs) Hd.
  split; [now apply wf_close|].
  assert (Hgone : timers (clearTimeout (close_timer w) w) = []).
  { destruct p as [D|].
    - destruct Hs as (x & Ht & Hj & _).
      assert (Hx : In x (timers w)) by (rewrite Ht; now left).
      apply (wf_slot w Hw Slot_close x Hx) in Hj. simpl in Hj.
      rewrite Hj. simpl. rewrite Ht. simpl. now rewrite Nat.eqb_refl.
    - destruct (close_timer w); simpl; now rewrite Hs. }
  destruct (close_fields w) as (F1 & F2 & F3 & F4 & F5).
  unfold onClose_times in *. rewrite F1, F2, F3, F4, F5, Hgone.
  do 4 (split; [assumption|]).
  eexists. split; [reflexivity|]. simpl. split; [reflexivity | lia].
Qed.

Lemma resting_browse (w : State) (o b b' : bool) (p : option Z) (n : Z)
    (cl : list Z) :
  resting w o b p n cl -> resting (set_isBrowsing b' w) o b' p n cl.
Proof.
  intros (Hw & Ho & Hb & Hn & Hc & Hs).
  split; [apply (wf_ext w); try reflexivity; exact Hw|].
  repeat split; assumption.
Qed.

Lemma burst_close_resting (ts : list Z) (t : Z) (w : State) (o b : bool)
    (cl : list Z) :
  resting w o b (Some (t + timeout w)) t cl -> 0 <= timeout w ->
  rapid (timeout w) t ts ->
  resting (run (burst Call_close ts) w) o b
    (Some (last ts t + timeout w)) (last ts t) cl.
Proof.
  revert t w. induction ts as [|u r IH]; intros t w Hr Hd Hrap; [exact Hr|].
  destruct Hrap as [Hu Hrap]. rewrite run_burst_cons, last_cons_cons.
  simpl perform.
  pose proof (resting_advance w o b _ t cl u Hr) as A. simpl in A.
  destruct (Z.leb_spec (t + timeout w) u) as [L|L]; [lia|].
  replace (Z.max t u) with u in A by lia.
  pose proof (same_setting_advance u w) as (_ & _ & _ & _ & _ & Sa & _).
  pose proof (same_setting_close (advance u w)) as (_ & _ & _ & _ & _ & Sc & _).
  assert (Ed : timeout (close (advance u w)) = timeout w) by congruence.
  specialize (IH u (close (advance u w))). rewrite Ed in IH. apply IH.
  - rewrite <- Sa. apply (resting_close _ _ _ _ _ _ A). now rewrite Sa.
  - exact Hd.
  - exact Hrap.
Qed.

(** X10: N calls of the debounced close(), each less than the delay after
    the one before, on a widget with no timer pending, lead to one run of
    _close, the delay after the last call and not before.  That run closes
    an opened widget that is not being browsed and calls onClose once; it
    leaves an opened widget that is being browsed, and a closed one, as
    they are, with no onClose. *)
Theorem close_collapse (w : State) (t : Z) (ts : list Z) :
  wf w -> timers w = [] -> now w <= t -> 0 <= timeout w ->
  rapid (timeout w) t ts ->
  (forall T, T < last ts t + timeout w ->
     isOpened (advance T (run (burst Call_close (t :: ts)) w)) = isOpened w /\
     onClose_times (advance T (run (burst Call_close (t :: ts)) w)) =
       onClose_times w) /\
  (forall T, last ts t + timeout w <= T ->
     isOpened (advance T (run (burst Call_close (t :: ts)) w)) =
       isOpened w && isBrowsing w /\
     onClose_times (advance T (run (burst Call_close (t :: ts)) w)) =
       (if isOpened w && negb (isBrowsing w)
        then (last ts t + timeout w) :: onClose_times w
        else onClose_times w)).
Proof.
  intros Hw Ht Hn Hd Hrap. rewrite run_burst_cons. simpl perform.
  assert (R0 : resting w (isOpened w) (isBrowsing w) None (now w) (onClose_times w))
    by (split; [exact Hw|]; repeat split; exact Ht).
  pose proof (resting_advance w _ _ _ _ _ t R0) as A. simpl in A.
  replace (Z.max (now w) t) with t in A by lia.
  pose proof (same_setting_advance t w) as (_ & _ & _ & _ & _ & Sa & _).
  pose proof (same_setting_close (advance t w)) as (_ & _ & _ & _ & _ & Sc & _).
  assert (Ed : timeout (close (advance t w)) = timeout w) by congruence.
  pose proof (burst_close_resting ts t (close (advance t w))
                (isOpened w) (isBrowsing w) (onClose_times w)) as B.
  rewrite Ed in B.
  assert (R : resting (run (burst Call_close ts) (close (advance t w)))
                (isOpened w) (isBrowsing w)
                (Some (last ts t + timeout w)) (last ts t) (onClose_times w)).
  { apply B; try assumption.
    rewrite <- Sa. apply (resting_close _ _ _ _ _ _ A). now rewrite Sa. }
  pose proof (last_rapid_le _ _ _ Hrap) as Hl.
  split; intros T HT;
    pose proof (resting_advance _ _ _ _ _ _ T R) as F; simpl in F.
  - destruct (Z.leb_spec (last ts t + timeout w) T) as [L|L]; [lia|].
    destruct F as (_ & F1 & _ & _ & F4 & _). now split.
  - destruct (Z.leb_spec (last ts t + timeout w) T) as [L|L]; [|lia].
    destruct F as (_ & F1 & _ & _ & F4 & _). split; [exact F1|].
    rewrite F4. replace (Z.max (last ts t) (last ts t + timeout w))
      with (last ts t + timeout w) by lia. reflexivity.
Qed.

Lemma close_collapse_witness :
  isOpened (advance 1399 (run (burst Call_close [0; 300; 699; 1000])
                            (sample true true false 400))) = true /\
  isOpened (advance 1400 (run (burst Call_close [0; 300; 699; 1000])
                            (sample true true false 400))) = false /\
  onClose_times (advance 1400 (run (burst Call_close [0; 300; 699; 1000])
                                 (sample true true false 400))) = [1400].
Proof.
  assert (Hr : rapid (timeout (sample true true false 400)) 0 [300; 699; 1000])
    by (simpl; repeat split; lia).
  assert (Hn : now (sample true true false 400) <= 0) by (simpl; lia).
  assert (Hd : 0 <= timeout (sample true true false 400)) by (simpl; lia).
  destruct (close_collapse (sample true true false 400) 0 [300; 699; 1000]
              (wf_sample true true false 400) eq_refl Hn Hd Hr) as [H1 H2].
  split; [apply (H1 1399); simpl; lia|].
  destruct (H2 1400) as [H3 H4]; [simpl; lia|]. split; [exact H3 | exact H4].
Defined.

Lemma hover_ready_targets (w w' : State) (e : Path) :
  same_setting w w' -> hover_ready w ->
  contains (menu w) e = true -> contains (trigger w) e = false ->
  hover_ready w' /\ contains (menu w') e = true /\
  contains (trigger w') e = false /\ timeout w' = timeout w /\
  trigger w' = trigger w.
Proof.
  intros S Hr Hm Ht. pose proof (hover_ready_ext _ _ S Hr) as Hr'.
  destruct S as (_ & _ & _ & St & Sm & Sd & _).
  rewrite St, Sm. auto.
Qed.

(** X9: in hover mode, on an opened widget with no timer pending: the
    pointer leaves the trigger, enters the menu before the delay has passed
    and later leaves the menu.  The menu stays open all the while, also if
    the timer set on leaving the trigger fires meanwhile; it closes, with
    one onClose, one delay after the pointer has left the menu, and not
    before. *)
Theorem browsing_holds_menu_open (w : State) (e : Path) (t1 t2 t3 : Z) :
  wf w -> hover_ready w -> timers w = [] ->
  isOpened w = true -> isBrowsing w = false ->
  contains (menu w) e = true -> contains (trigger w) e = false ->
  now w <= t1 -> t1 <= t2 -> t2 < t1 + timeout w -> t2 <= t3 ->
  let w3 := run [(t1, leave_trigger w);
                 (t2, Fire_event {| ev_type := mouseover; ev_target := e |});
                 (t3, Fire_event {| ev_type := mouseout; ev_target := e |})] w in
  (forall T, T < t3 + timeout w ->
     isOpened (advance T w3) = true /\
     onClose_times (advance T w3) = onClose_times w) /\
  (forall T, t3 + timeout w <= T ->
     isOpened (advance T w3) = false /\
     onClose_times (advance T w3) = (t3 + timeout w) :: onClose_times w).
Proof.
  intros Hw Hr Ht Ho Hb Hm Htr Hn H12 H21 H23.
  unfold leave_trigger. cbn [run perform].
  assert (R0 : resting w true false None (now w) (onClose_times w))
    by (split; [exact Hw|]; repeat split; assumption).
  (* the pointer leaves the trigger *)
  pose proof (resting_advance w _ _ _ _ _ t1 R0) as A1. simpl in A1.
  replace (Z.max (now w) t1) with t1 in A1 by lia.
  pose proof (same_setting_advance t1 w) as S1.
  destruct (hover_ready_targets w _ e S1 Hr Hm Htr) as (G1 & _ & _ & D1 & T1).
  rewrite <- T1, (dispatch_leave _ G1).
  assert (B1 : resting (close (advance t1 w)) true false
                 (Some (t1 + timeout w)) t1 (onClose_times w)).
  { rewrite <- D1. apply (resting_close _ _ _ _ _ _ A1). rewrite D1. lia. }
  assert (S1' : same_setting w (close (advance t1 w)))
    by (eapply same_setting_trans; [exact S1 | apply same_setting_close]).
  set (w1 := close (advance t1 w)) in *.
  (* the pointer enters the menu *)
  pose proof (resting_advance w1 _ _ _ _ _ t2 B1) as A2. simpl in A2.
  destruct (Z.leb_spec (t1 + timeout w) t2) as [L|_]; [lia|].
  replace (Z.max t1 t2) with t2 in A2 by lia.
  assert (S2 : same_setting w (advance t2 w1))
    by (eapply same_setting_trans; [exact S1' | apply same_setting_advance]).
  destruct (hover_ready_targets w _ e S2 Hr Hm Htr) as (G2 & M2 & R2 & _ & _).
  rewrite (dispatch_in_menu (advance t2 w1) mouseover e G2) by
    (try discriminate; assumption).
  assert (B2 : resting (onBrowse (advance t2 w1)) true true
                 (Some (t1 + timeout w)) t2 (onClose_times w))
    by (apply (resting_browse _ _ _ _ _ _ _ A2)).
  assert (S2' : same_setting w (onBrowse (advance t2 w1)))
    by (eapply same_setting_trans; [exact S2 | repeat split]).
  set (w2 := onBrowse (advance t2 w1)) in *.
  (* the pointer leaves the menu *)
  pose proof (resting_advance w2 _ _ _ _ _ t3 B2) as A3. simpl in A3.
  assert (S3 : same_setting w (advance t3 w2))
    by (eapply same_setting_trans; [exact S2' | apply same_setting_advance]).
  destruct (hover_ready_targets w _ e S3 Hr Hm Htr) as (G3 & M3 & R3 & D3 & _).
  rewrite (dispatch_in_menu (advance t3 w2) mouseout e G3) by
    (try discriminate; assumption).
  assert (B3 : resting (close (onEndBrowse (advance t3 w2))) true false
                 (Some (t3 + timeout w)) t3 (onClose_times w)).
  { rewrite <- D3.
    destruct (Z.leb_spec (t1 + timeout w) t3) as [L|L].
    - replace (Z.max (Z.max t2 (t1 + timeout w)) t3) with t3 in A3 by lia.
      apply (resting_close (onEndBrowse (advance t3 w2)) true false None);
        [apply (resting_browse _ _ _ _ _ _ _ A3)
        | change (0 <= timeout (advance t3 w2)); rewrite D3; lia].
    - replace (Z.max t2 t3) with t3 in A3 by lia.
      apply (resting_close (onEndBrowse (advance t3 w2)) true false
               (Some (t1 + timeout w)));
        [apply (resting_browse _ _ _ _ _ _ _ A3)
        | change (0 <= timeout (advance t3 w2)); rewrite D3; lia]. }
  set (w3 := close (onEndBrowse (advance t3 w2))) in *.
  (* and time passes *)
  split; intros T HT;
    pose proof (resting_advance w3 _ _ _ _ _ T B3) as F; simpl in F.
  - destruct (Z.leb_spec (t3 + timeout w) T) as [L|L]; [lia|].
    destruct F as (_ & F1 & _ & _ & F4 & _). now split.
  - destruct (Z.leb_spec (t3 + timeout w) T) as [L|L]; [|lia].
    destruct F as (_ & F1 & _ & _ & F4 & _). split; [exact F1|].
    rewrite F4. f_equal. lia.
Qed.

Lemma browsing_holds_menu_open_witness :
  isOpened (advance 1299
    (run [(0, leave_trigger (sample true true false 400));
          (100, Fire_event {| ev_type := mouseover; ev_target := sample_item 0 |});
          (900, Fire_event {| ev_type := mouseout; ev_target := sample_item 0 |})]
       (sample true true false 400))) = true /\
  isOpened (advance 1300
    (run [(0, leave_trigger (sample true true false 400));
          (100, Fire_event {| ev_type := mouseover; ev_target := sample_item 0 |});
          (900, Fire_event {| ev_type := mouseout; ev_target := sample_item 0 |})]
       (sample true true false 400))) = false.
Proof.
  assert (Hr : hover_ready (sample true true false 400)) by (repeat split).
  assert (Hn : now (sample true true false 400) <= 0) by (simpl; lia).
  assert (H12 : 0 <= 100) by lia.
  assert (H21 : 100 < 0 + timeout (sample true true false 400)) by (simpl; lia).
  assert (H23 : 100 <= 900) by lia.
  destruct (browsing_holds_menu_open (sample true true false 400) (sample_item 0)
              0 100 900 (wf_sample true true false 400) Hr eq_refl eq_refl
              eq_refl eq_refl eq_refl Hn H12 H21 H23) as [H1 H2].
  split; [apply (H1 1299); simpl; lia | apply (H2 1300); simpl; lia].
Defined.

(** ** What never changes *)

(** X14: from construction on, whatever is called, whatever events arrive
    and whatever time passes, the delay, the mode, the trigger, the menu and
    the registered listeners stay as the constructor set them: only
    destroy() changes any of them. *)
Theorem setting_is_stable (d : Node) (t0 : Z) (o : Options) (w : State)
    (script : list (Z * Action)) :
  Dropdown d t0 o = Some w ->
  timeout (run script w) = match opt_wait o with
                           | Some z => if z =? 0 then 400 else z
                           | None => 400
                           end /\
  openBy (run script w) = opt_openBy o /\
  trigger (run script w) = trigger w /\
  menu (run script w) = menu w /\
  listeners (run script w) = listeners w.
Proof.
  intros H. apply Dropdown_fields in H.
  destruct H as (element & tr & mn & _ & _ & _ & _ & _ & Hob & _ & _ & Ht & _).
  destruct (same_setting_run script w) as (_ & _ & So & St & Sm & Sd & Sl).
  rewrite Sd, So, Ht, Hob. repeat split; try assumption.
  unfold truthy_num, default_timeout.
  destruct (opt_wait o) as [z|]; [|reflexivity]. now destruct (z =? 0).
Qed.

Lemma setting_is_stable_witness :
  timeout (run [(0, Call_open); (500, Call_toggle); (600, Call_close)]
             (sample false false false 250)) = 250.
Proof.
  destruct (setting_is_stable (page [] []) 0 (sample_options None (Some 250))
              (sample false false false 250)
              [(0, Call_open); (500, Call_toggle); (600, Call_close)] eq_refl)
    as (H & _).
  exact H.
Defined.

(** ** A pointer that only passes over the trigger *)

Lemma relay_ext (w w' : State) (h : Z) (hs : list Z) :
  same_open_side w w' -> timeout w' = timeout w -> now w' = now w ->
  relay w h hs -> relay w' h hs.
Proof.
  intros S Ed En (R1 & R2 & R3 & R4).
  destruct (same_open_side_hov _ _ S) as [Eh Ei].
  unfold relay. rewrite Eh, Ei, Ed, En. auto.
Qed.

(** X13: in hover mode, with nothing that leads to _open pending, the
    pointer enters the trigger and leaves it again before the delay has
    passed.  Leaving cancels nothing: _open still runs, two delays after the
    pointer entered, and on a closed widget it calls onOpen then. *)
Theorem passing_pointer_still_opens (w : State) (t u T : Z) :
  wf w -> hover_ready w -> pending is_open_job w = [] ->
  now w <= t -> t <= u -> u < t + timeout w ->
  t + 2 * timeout w <= T ->
  let w' := advance T (run [(t, enter_trigger w); (u, leave_trigger w)] w) in
  firings Job_open w' = (t + 2 * timeout w) :: firings Job_open w /\
  (isOpened w = false ->
   onOpen_times w' = (t + 2 * timeout w) :: onOpen_times w).
Proof.
  intros Hw Hrd Hp Hn Htu Hu HT.
  assert (Hd : 0 <= timeout w) by lia.
  unfold enter_trigger, leave_trigger. cbn [run perform].
  (* the pointer enters *)
  destruct (advance_quiet t w Hw) as [Q Qn]; [rewrite Hp; constructor|].
  pose proof (wf_advance t w Hw) as Hw0.
  pose proof (same_setting_advance t w) as Sa.
  pose proof Sa as (_ & _ & _ & Sat & _ & Sad & _).
  pose proof (hover_ready_ext _ _ Sa Hrd) as Hrd0.
  destruct (same_open_side_hov _ _ Q) as [Qh Qi].
  assert (Hh0 : hov (advance t w) = [])
    by (rewrite Qh; unfold hov; now rewrite hover_among_open, Hp).
  assert (Hi0 : inn (advance t w) = [])
    by (rewrite Qi; unfold inn; now rewrite inner_among_open, Hp).
  assert (Hn0 : now (advance t w) = t) by lia.
  assert (Hd0 : 0 <= timeout (advance t w)) by now rewrite Sad.
  pose proof (enter_effect (advance t w) Hrd0 Hd0) as EE.
  cbv zeta in EE. rewrite Sat in EE.
  destruct EE as (E1 & E2 & E3 & E4 & E5 & E6 & E7).
  set (w1 := dispatch {| ev_type := mouseover; ev_target := trigger w |}
               (advance t w)) in *.
  assert (Sd : same_setting (advance t w) w1)
    by (unfold w1, dispatch; apply same_setting_deliver).
  assert (S1 : same_setting w w1) by (eapply same_setting_trans; eassumption).
  pose proof S1 as (_ & _ & _ & _ & _ & Ed1 & _).
  assert (Hr1 : relay w1 (t + timeout w) []).
  { unfold relay. rewrite E1, E2, E6, Hh0, Hi0, Hn0, Sad, Ed1. simpl.
    split; [reflexivity|]. split; [exact I|]. split; [lia | constructor]. }
  pose proof (E7 Hw0) as Hw1.
  (* the pointer leaves *)
  destruct (run_timers_relay (backlog (timers w1)) u w1 _ _ Hw1 Hr1)
    as ((h' & hs' & Hr' & Hl') & Q2 & Q3 & Q4 & Q5);
    [now rewrite Ed1 | simpl; lia |]. simpl in Hl'.
  pose proof (now_run_timers (backlog (timers w1)) u w1) as Hnr.
  pose proof (same_setting_advance u w1) as S2a.
  assert (S2 : same_setting w (advance u w1))
    by (eapply same_setting_trans; eassumption).
  pose proof S2 as (_ & _ & _ & St2 & _ & Ed2 & _).
  assert (Hn2 : now (advance u w1) = u).
  { unfold advance. simpl. rewrite E6, Hn0 in *. lia. }
  assert (Hr2 : relay (advance u w1) h' hs').
  { destruct Hr' as (A1 & A2 & A3 & A4).
    pose proof (same_setting_run_timers (backlog (timers w1)) u w1)
      as (_ & _ & _ & _ & _ & Srt & _).
    unfold relay. rewrite Hn2, Ed2. rewrite Srt, Ed1 in A2.
    split; [exact A1|]. split; [exact A2|]. split; [lia | exact A4]. }
  rewrite <- St2, (dispatch_leave _ (hover_ready_ext _ _ S2 Hrd)).
  pose proof (wf_advance u w1 Hw1) as Hw2.
  pose proof (close_open_side _ Hw2) as Qc.
  assert (Hr3 : relay (close (advance u w1)) h' hs').
  { apply (relay_ext (advance u w1)); try assumption.
    - apply same_setting_close.
    - apply now_close. }
  pose proof (same_setting_close (advance u w1)) as (_ & _ & _ & _ & _ & Ed3 & _).
  set (w3 := close (advance u w1)) in *.
  (* and time passes *)
  destruct (run_timers_relay_drain (backlog (timers w3)) T w3 h' hs')
    as (D1 & D2); try assumption.
  - now apply wf_close.
  - rewrite Ed3, Ed2. exact Hd.
  - rewrite Ed3, Ed2, Hl'. lia.
  - apply le_n.
  - rewrite Ed3, Ed2, Hl' in D1, D2.
    replace (t + timeout w + timeout w) with (t + 2 * timeout w) in D1, D2 by lia.
    destruct Q as (_ & _ & Q3' & Q4' & Q5').
    destruct Qc as (_ & _ & C3 & C4 & C5).
    assert (F2 : firings Job_open (advance u w1) = firings Job_open w1)
      by (unfold advance; exact Q2).
    assert (O2 : onOpen_times (advance u w1) = onOpen_times w1)
      by (unfold advance; exact Q3).
    cbv zeta. split.
    + change (firings Job_open (run_timers (backlog (timers w3)) T w3) =
              (t + 2 * timeout w) :: firings Job_open w).
      rewrite D1. congruence.
    + intros Ho.
      change (onOpen_times (run_timers (backlog (timers w3)) T w3) =
              (t + 2 * timeout w) :: onOpen_times w).
      rewrite D2; [congruence|].
      apply C5. unfold advance. simpl. apply Q4. rewrite E5. now apply Q5'.
Qed.

Lemma passing_pointer_still_opens_witness :
  onOpen_times
    (advance 800
       (run [(0, enter_trigger (sample true false false 400));
             (50, leave_trigger (sample true false false 400))]
          (sample true false false 400))) = [800].
Proof.
  assert (Hr : hover_ready (sample true false false 400)) by (repeat split).
  assert (Hn : now (sample true false false 400) <= 0) by (simpl; lia).
  assert (H1 : 0 <= 50) by lia.
  assert (H2 : 50 < 0 + timeout (sample true false false 400)) by (simpl; lia).
  assert (H3 : 0 + 2 * timeout (sample true false false 400) <= 800)
    by (simpl; lia).
  destruct (passing_pointer_still_opens (sample true false false 400) 0 50 800
              (wf_sample true false false 400) Hr eq_refl Hn H1 H2 H3)
    as [_ H].
  exact (H eq_refl).
Defined.
